(** * Runtime key bindings (packages/game-shared/src/util/runtime-keybindings.ts)

    A shallow embedding of the binding-management module: the token
    normaliser, the logical-to-physical expansion, the reserved and conflict
    checks, the sanitiser, and the load/save protocol around the storage slot.

    Strings are [String.string]; every character stands for one code unit
    below 256.  Trimming and lower-casing stay within these strings;
    upper-casing leaves them on U+00B5 and U+00FF, and an evaluation that
    does so ends in [Beyond].  Values that cross the untyped boundary (parsed storage
    contents, results of look-ups in object literals) are [JsValue]s; numbers
    are binary64 floats.  JSON.parse and JSON.stringify are parameters of the
    persistence functions. *)

From Stdlib Require Import List Bool Arith Lia Ascii String Floats.
Import ListNotations.

Set Warnings "-register-all".


Open Scope string_scope.
Open Scope list_scope.

(* ================================================================== *)
(** ** Strings: the String.prototype methods the module calls *)

Module Str.

Definition code (c : ascii) : nat := nat_of_ascii c.

Definition between (lo hi : nat) (c : ascii) : bool :=
  Nat.leb lo (code c) && Nat.leb (code c) hi.

Definition isUpperAZ : ascii -> bool := between 65 90.
Definition isLowerAZ : ascii -> bool := between 97 122.
Definition isDigit09 : ascii -> bool := between 48 57.

(** WhiteSpace and LineTerminator code units below 256:
    TAB, LF, VT, FF, CR, SP and NBSP. *)
Definition isWhiteSpace (c : ascii) : bool :=
  between 9 13 c || Nat.eqb (code c) 32 || Nat.eqb (code c) 160.

Fixpoint trimStart (s : string) : string :=
  match s with
  | EmptyString => EmptyString
  | String c rest => if isWhiteSpace c then trimStart rest else s
  end.

Fixpoint trimEnd (s : string) : string :=
  match s with
  | EmptyString => EmptyString
  | String c rest =>
      match trimEnd rest with
      | EmptyString => if isWhiteSpace c then EmptyString else String c EmptyString
      | kept => String c kept
      end
  end.

(** [String.prototype.trim] *)
Definition trim (s : string) : string := trimEnd (trimStart s).

(** Lower-casing of one code unit below 256: A-Z, and the Latin-1 capitals
    U+00C0-U+00DE except the multiplication sign U+00D7. *)
Definition lowerChar (c : ascii) : ascii :=
  if isUpperAZ c || (between 192 222 c && negb (Nat.eqb (code c) 215))
  then ascii_of_nat (code c + 32)
  else c.

(** [String.prototype.toLowerCase] *)
Fixpoint toLowerCase (s : string) : string :=
  match s with
  | EmptyString => EmptyString
  | String c rest => String (lowerChar c) (toLowerCase rest)
  end.

(** Upper-casing of one code unit below 256: a-z, and the Latin-1 small
    letters U+00E0-U+00FE except the division sign U+00F7; the sharp s
    U+00DF expands to two letters.  U+00B5 and U+00FF upper-case to U+039C
    and U+0178, code units above 255, which these strings cannot hold:
    [None]. *)
Definition upperChar (c : ascii) : option string :=
  if Nat.eqb (code c) 181 || Nat.eqb (code c) 255 then None
  else if Nat.eqb (code c) 223 then Some (String "S" (String "S" EmptyString))
  else if isLowerAZ c || (between 224 254 c && negb (Nat.eqb (code c) 247))
  then Some (String (ascii_of_nat (code c - 32)) EmptyString)
  else Some (String c EmptyString).

(** [String.prototype.toUpperCase]; [None] where the result has a code unit
    above 255. *)
Fixpoint toUpperCase (s : string) : option string :=
  match s with
  | EmptyString => Some EmptyString
  | String c rest =>
      match upperChar c, toUpperCase rest with
      | Some upper, Some rest' => Some (upper ++ rest')%string
      | _, _ => None
      end
  end.

(** [/^<prefix><class>$/]: the prefix followed by exactly one character of
    the class.  Without the m flag, [$] matches at the end of input only. *)
Fixpoint prefixThenOne (prefix : string) (cls : ascii -> bool) (s : string) : option ascii :=
  match prefix, s with
  | EmptyString, String c EmptyString => if cls c then Some c else None
  | String p prefix', String c rest =>
      if Ascii.eqb p c then prefixThenOne prefix' cls rest else None
  | _, _ => None
  end.

(** [/^(a|b|...)$/] *)
Definition oneOf (alternatives : list string) (s : string) : bool :=
  existsb (String.eqb s) alternatives.

End Str.

(* ================================================================== *)
(** ** Run-time values *)

(** The intrinsic objects an ordinary object literal inherits from. *)
Inductive Intrinsic : Type :=
| ObjectConstructor                          (* the function Object *)
| ObjectPrototype                            (* Object.prototype *)
| ObjectPrototypeFunction (name : string).   (* Object.prototype.toString, ... *)

Inductive JsValue : Type :=
| JUndefined
| JNull
| JBoolean (b : bool)
| JNumber (n : float)
| JString (s : string)
| JArray (items : list JsValue)
| JObject (props : list (string * JsValue))   (* own properties, insertion order *)
| JIntrinsic (i : Intrinsic).

Inductive JsType : Type :=
| TyUndefined | TyObject | TyBoolean | TyNumber | TyString | TyFunction.

Definition JsType_eqb (a b : JsType) : bool :=
  match a, b with
  | TyUndefined, TyUndefined | TyObject, TyObject | TyBoolean, TyBoolean
  | TyNumber, TyNumber | TyString, TyString | TyFunction, TyFunction => true
  | _, _ => false
  end.

(** [typeof v] *)
Definition typeof (v : JsValue) : JsType :=
  match v with
  | JUndefined => TyUndefined
  | JNull => TyObject
  | JBoolean _ => TyBoolean
  | JNumber _ => TyNumber
  | JString _ => TyString
  | JArray _ | JObject _ => TyObject
  | JIntrinsic ObjectPrototype => TyObject
  | JIntrinsic _ => TyFunction
  end.

(** ToBoolean: what [if (v)] and [!v] test. *)
Definition truthy (v : JsValue) : bool :=
  match v with
  | JUndefined | JNull => false
  | JBoolean b => b
  | JNumber n => negb (PrimFloat.is_zero n || PrimFloat.is_nan n)
  | JString s => negb (String.eqb s "")
  | JArray _ | JObject _ | JIntrinsic _ => true
  end.

Definition Intrinsic_eqb (a b : Intrinsic) : bool :=
  match a, b with
  | ObjectConstructor, ObjectConstructor => true
  | ObjectPrototype, ObjectPrototype => true
  | ObjectPrototypeFunction x, ObjectPrototypeFunction y => String.eqb x y
  | _, _ => false
  end.

(** [a === b].  Arrays and plain objects compare by identity; two of them
    built separately (two nodes of a parsed document, two literals) are
    never the same object. *)
Definition strict_equals (a b : JsValue) : bool :=
  match a, b with
  | JUndefined, JUndefined => true
  | JNull, JNull => true
  | JBoolean x, JBoolean y => Bool.eqb x y
  | JNumber x, JNumber y => PrimFloat.eqb x y
  | JString x, JString y => String.eqb x y
  | JIntrinsic x, JIntrinsic y => Intrinsic_eqb x y
  | _, _ => false
  end.

(** SameValueZero, the equality of [Set]: as [===] but NaN equals NaN. *)
Definition sameValueZero (a b : JsValue) : bool :=
  match a, b with
  | JNumber x, JNumber y => PrimFloat.eqb x y || (PrimFloat.is_nan x && PrimFloat.is_nan y)
  | _, _ => strict_equals a b
  end.

(** *** Property access on ordinary objects *)

Fixpoint own {A : Type} (props : list (string * A)) (key : string) : option A :=
  match props with
  | [] => None
  | (k, v) :: rest => if String.eqb k key then Some v else own rest key
  end.

Definition Object_prototype_methods : list string :=
  [ "hasOwnProperty"; "isPrototypeOf"; "propertyIsEnumerable"; "toLocaleString";
    "toString"; "valueOf"; "__defineGetter__"; "__defineSetter__";
    "__lookupGetter__"; "__lookupSetter__" ].

(** What an object whose prototype is Object.prototype inherits under [key]. *)
Definition inherited (key : string) : JsValue :=
  if String.eqb key "constructor" then JIntrinsic ObjectConstructor
  else if String.eqb key "__proto__" then JIntrinsic ObjectPrototype
  else if Str.oneOf Object_prototype_methods key then JIntrinsic (ObjectPrototypeFunction key)
  else JUndefined.

(** [obj[key]] for an object literal or a parsed object: the own property,
    else the one found along the prototype chain. *)
Definition js_get (props : list (string * JsValue)) (key : string) : JsValue :=
  match own props key with
  | Some v => v
  | None => inherited key
  end.

(** [obj[key] = v]: an existing own property keeps its place. *)
Fixpoint js_set (props : list (string * JsValue)) (key : string) (v : JsValue)
  : list (string * JsValue) :=
  match props with
  | [] => [(key, v)]
  | (k, old) :: rest =>
      if String.eqb k key then (k, v) :: rest else (k, old) :: js_set rest key v
  end.

(** [Object.keys] *)
Definition Object_keys (props : list (string * JsValue)) : list string := map fst props.

(** *** [Set] *)

Definition JsSet : Type := list JsValue.

Definition Set_has (s : JsSet) (v : JsValue) : bool := existsb (sameValueZero v) s.
Definition Set_add (s : JsSet) (v : JsValue) : JsSet := if Set_has s v then s else s ++ [v].
Definition Set_delete (s : JsSet) (v : JsValue) : JsSet :=
  filter (fun x => negb (sameValueZero v x)) s.

(* ================================================================== *)
(** ** The module *)

Definition BindingToken : Type := string.

(** A [RuntimeKeybindings] object: its own properties in insertion order. *)
Definition RuntimeKeybindings : Type := list (string * JsValue).

Definition RUNTIME_KEYBINDINGS_STORAGE_KEY : string := "stn_custom_keybindings_v1".
Definition RUNTIME_KEYBINDINGS_UPDATED_EVENT : string := "stn:keybindings-updated".

Definition DEFAULT_RUNTIME_KEYBINDINGS : RuntimeKeybindings :=
  [ ("moveUp", JString "KeyW");
    ("moveLeft", JString "KeyA");
    ("moveDown", JString "KeyS");
    ("moveRight", JString "KeyD");
    ("sprint", JString "Shift");
    ("interact", JString "KeyE");
    ("teleportToBase", JString "KeyC");
    ("quickHeal", JString "KeyH");
    ("dropItem", JString "KeyG");
    ("splitDropItem", JString "KeyX");
    ("weaponsHud", JString "KeyF");
    ("quickSwitchWeapon", JString "KeyQ");
    ("chat", JString "KeyY");
    ("playerList", JString "Tab");
    ("controlsPanel", JString "KeyI") ].

Definition REBINDABLE_ACTION_IDS : list string := Object_keys DEFAULT_RUNTIME_KEYBINDINGS.

Definition RESERVED_CODES : JsSet :=
  map JString
    [ "Escape"; "KeyM";
      "Digit0"; "Digit1"; "Digit2"; "Digit3"; "Digit4";
      "Digit5"; "Digit6"; "Digit7"; "Digit8"; "Digit9";
      "Numpad0"; "Numpad1"; "Numpad2"; "Numpad3"; "Numpad4";
      "Numpad5"; "Numpad6"; "Numpad7"; "Numpad8"; "Numpad9" ].

(** An object literal: besides its own entries it answers to the names it
    inherits (see [js_get]). *)
Definition CANONICAL_ALIASES : list (string * JsValue) :=
  [ ("shiftleft", JString "Shift");
    ("shiftright", JString "Shift");
    ("shift", JString "Shift");
    ("controlleft", JString "Control");
    ("controlright", JString "Control");
    ("control", JString "Control");
    ("ctrl", JString "Control");
    ("altleft", JString "Alt");
    ("altright", JString "Alt");
    ("alt", JString "Alt");
    ("metaleft", JString "Meta");
    ("metaright", JString "Meta");
    ("meta", JString "Meta");
    ("cmd", JString "Meta");
    ("command", JString "Meta");
    ("enter", JString "Enter");
    ("tab", JString "Tab");
    ("space", JString "Space");
    (" ", JString "Space");
    ("escape", JString "Escape");
    ("esc", JString "Escape") ].

Definition getBindingEventCodes (token : JsValue) : list JsValue :=
  if strict_equals token (JString "Shift") then [JString "ShiftLeft"; JString "ShiftRight"]
  else if strict_equals token (JString "Control") then [JString "ControlLeft"; JString "ControlRight"]
  else if strict_equals token (JString "Alt") then [JString "AltLeft"; JString "AltRight"]
  else if strict_equals token (JString "Meta") then [JString "MetaLeft"; JString "MetaRight"]
  else [token].

(** [matchesBinding(event, token)], on the event's [code]. *)
Definition matchesBinding (event_code : JsValue) (token : JsValue) : bool :=
  existsb (sameValueZero event_code) (getBindingEventCodes token).

Definition arrowKeys : list string := ["ArrowUp"; "ArrowDown"; "ArrowLeft"; "ArrowRight"].
Definition namedKeys : list string :=
  ["Enter"; "Tab"; "Space"; "Backspace"; "Delete"; "Home"; "End"; "PageUp"; "PageDown"; "Insert"].
Definition bracketKeys : list string := ["BracketLeft"; "BracketRight"].
Definition punctuationKeys : list string :=
  ["Semicolon"; "Quote"; "Comma"; "Period"; "Slash"; "Backslash"; "Minus"; "Equal"; "Backquote"].

Definition isSome {A : Type} (o : option A) : bool :=
  match o with Some _ => true | None => false end.

(** The seven whitelist patterns of [normalizeBindingToken], in order. *)
Definition matchesWhitelist (raw : string) : bool :=
  isSome (Str.prefixThenOne "Key" Str.isUpperAZ raw)
  || isSome (Str.prefixThenOne "Digit" Str.isDigit09 raw)
  || isSome (Str.prefixThenOne "Numpad" Str.isDigit09 raw)
  || Str.oneOf arrowKeys raw
  || Str.oneOf namedKeys raw
  || Str.oneOf bracketKeys raw
  || Str.oneOf punctuationKeys raw.

(** Returns [JNull] for the source's [null].  The match on [JString] is the
    test [typeof token !== "string"]; the result of the alias look-up is
    returned as it is when it is truthy. *)
Definition normalizeBindingToken (token : JsValue) : JsValue :=
  match token with
  | JString t =>
      if negb (truthy token) then JNull else
      let raw := Str.trim t in
      if negb (truthy (JString raw)) then JNull else
      let alias := js_get CANONICAL_ALIASES (Str.toLowerCase raw) in
      if truthy alias then alias else
      if matchesWhitelist raw then JString raw else JNull
  | _ => JNull
  end.

(** [normalizeCapturedKey(event)], on the event's [code]. *)
Definition normalizeCapturedKey (event_code : string) : JsValue :=
  if negb (truthy (JString event_code)) || String.eqb event_code "Unidentified" then JNull
  else normalizeBindingToken (JString event_code).

Definition isReservedBinding (token : JsValue) : bool :=
  existsb (fun code => Set_has RESERVED_CODES code) (getBindingEventCodes token).

(** The [for ... of] loop of [findBindingConflict] over the remaining ids. *)
Fixpoint findBindingConflict_from (ids : list string) (bindings : RuntimeKeybindings)
    (actionId : string) (candidate : JsValue) : option string :=
  match ids with
  | [] => None
  | id :: rest =>
      if String.eqb id actionId then findBindingConflict_from rest bindings actionId candidate
      else if strict_equals (js_get bindings id) candidate then Some id
      else findBindingConflict_from rest bindings actionId candidate
  end.

Definition findBindingConflict (bindings : RuntimeKeybindings) (actionId : string)
    (candidate : JsValue) : option string :=
  findBindingConflict_from REBINDABLE_ACTION_IDS bindings actionId candidate.


(** [record[actionId]] at an action id, for a [record] that passed the
    object test of [sanitizeBindings].  Arrays and Object.prototype carry no
    property under any of the action ids. *)
Definition record_get (record : JsValue) (actionId : string) : JsValue :=
  match record with
  | JObject props => js_get props actionId
  | _ => JUndefined
  end.

(** The first loop of [sanitizeBindings]: the tokens in use. *)
Definition seedSeen (sanitized : RuntimeKeybindings) : JsSet :=
  fold_left
    (fun seen actionId =>
       let current := js_get sanitized actionId in
       if negb (isReservedBinding current) then Set_add seen current else seen)
    REBINDABLE_ACTION_IDS [].

(** One iteration of the second loop, on the pair (sanitized, seen). *)
Definition sanitizeStep (record : JsValue) (state : RuntimeKeybindings * JsSet)
    (actionId : string) : RuntimeKeybindings * JsSet :=
  let '(sanitized, seen) := state in
  let raw := record_get record actionId in
  if negb (JsType_eqb (typeof raw) TyString) then state else
  let normalized := normalizeBindingToken raw in
  if negb (truthy normalized) then state else
  if isReservedBinding normalized then state else
  let previousDefault := js_get sanitized actionId in
  let nextSeen := Set_delete seen previousDefault in
  if Set_has nextSeen normalized then state else
  (js_set sanitized actionId normalized,
   Set_add (Set_delete seen previousDefault) normalized).

Definition sanitizeBindings (value : JsValue) : RuntimeKeybindings :=
  let sanitized := DEFAULT_RUNTIME_KEYBINDINGS in
  if negb (truthy value) || negb (JsType_eqb (typeof value) TyObject) then sanitized else
  let seen := seedSeen sanitized in
  fst (fold_left (sanitizeStep value) REBINDABLE_ACTION_IDS (sanitized, seen)).

(* ================================================================== *)
(** ** Effects: exceptions and the browser window *)

Inductive Exn : Type := TypeError | SyntaxError | SecurityError | QuotaExceededError.

(** How an evaluation ends.  [Beyond]: it goes on with a string that has a
    code unit above 255, which the strings of this development cannot hold;
    nothing is said of what follows. *)
Inductive Completion (A : Type) : Type :=
| Normal (a : A)
| Throw (e : Exn)
| Beyond.
Arguments Normal {A} a.
Arguments Throw {A} e.
Arguments Beyond {A}.

(** The storage area, as far as the entry under
    [RUNTIME_KEYBINDINGS_STORAGE_KEY] goes. *)
Record Storage : Type := mkStorage {
  blocked : bool;            (* every access throws (storage disabled) *)
  full : bool;               (* setItem throws (quota, private browsing) *)
  entry : option string      (* the entry, when there is one *)
}.

Record Window : Type := mkWindow {
  localStorage : Storage;
  config_keybindings : option (list (string * JsValue));   (* window.config?.keybindings *)
  dispatched : list string                                  (* events dispatched so far *)
}.

(** [None] where [typeof window === "undefined"]. *)
Definition World : Type := option Window.

(** Computations over the window that may throw. *)
Definition M (A : Type) : Type := Window -> Completion A * Window.

Definition ret {A : Type} (a : A) : M A := fun w => (Normal a, w).
Definition throw {A : Type} (e : Exn) : M A := fun w => (Throw e, w).
Definition bind {A B : Type} (m : M A) (k : A -> M B) : M B :=
  fun w => match m w with
           | (Normal a, w') => k a w'
           | (Throw e, w') => (Throw e, w')
           | (Beyond, w') => (Beyond, w')
           end.
Definition tryCatch {A : Type} (body : M A) (handler : M A) : M A :=
  fun w => match body w with
           | (Normal a, w') => (Normal a, w')
           | (Throw _, w') => handler w'
           | (Beyond, w') => (Beyond, w')
           end.

Notation "x <- m ;; k" := (bind m (fun x => k))
  (at level 61, m at next level, right associativity).
Notation "m ;;; k" := (bind m (fun _ => k))
  (at level 61, right associativity).

(** [window.localStorage.getItem(KEY)]: [JNull] when there is no entry. *)
Definition localStorage_getItem : M JsValue :=
  fun w =>
    if blocked (localStorage w) then (Throw SecurityError, w)
    else (Normal (match entry (localStorage w) with
                  | Some text => JString text
                  | None => JNull
                  end), w).

(** [window.localStorage.setItem(KEY, text)] *)
Definition localStorage_setItem (text : string) : M unit :=
  fun w =>
    let st := localStorage w in
    if blocked st then (Throw SecurityError, w)
    else if full st then (Throw QuotaExceededError, w)
    else (Normal tt,
          mkWindow (mkStorage (blocked st) (full st) (Some text))
                   (config_keybindings w) (dispatched w)).

(** [window.dispatchEvent(new CustomEvent(name))].  The listeners belong to
    other modules; the event is recorded. *)
Definition dispatchEvent (name : string) : M unit :=
  fun w => (Normal tt,
            mkWindow (localStorage w) (config_keybindings w) (dispatched w ++ [name])).

(* ================================================================== *)
(** ** Display labels and the legacy label table *)

Definition specialLabels : list (string * JsValue) :=
  [ ("Shift", JString "SHIFT"); ("Control", JString "CTRL"); ("Alt", JString "ALT");
    ("Meta", JString "CMD"); ("Enter", JString "ENTER"); ("Tab", JString "TAB");
    ("Space", JString "SPACE"); ("Backspace", JString "BACKSPACE");
    ("Delete", JString "DELETE"); ("Home", JString "HOME"); ("End", JString "END");
    ("PageUp", JString "PAGE UP"); ("PageDown", JString "PAGE DOWN");
    ("Insert", JString "INSERT"); ("ArrowUp", JString "UP"); ("ArrowDown", JString "DOWN");
    ("ArrowLeft", JString "LEFT"); ("ArrowRight", JString "RIGHT");
    ("BracketLeft", JString "["); ("BracketRight", JString "]");
    ("Semicolon", JString ";"); ("Quote", JString "'"); ("Comma", JString ",");
    ("Period", JString "."); ("Slash", JString "/"); ("Backslash", JString "\");
    ("Minus", JString "-"); ("Equal", JString "="); ("Backquote", JString "`") ].

(** The [matchers] table: a pattern with one capture group, and a formatter
    of the captured character. *)
Definition matchers : list ((string -> option ascii) * (ascii -> string)) :=
  [ (Str.prefixThenOne "Key" Str.isUpperAZ, fun c => String c "");
    (Str.prefixThenOne "Digit" Str.isDigit09, fun c => String c "");
    (Str.prefixThenOne "Numpad" Str.isDigit09, fun c => ("NUM " ++ String c "")%string) ].

(** [s.toUpperCase()] *)
Definition upperCased (s : string) : Completion JsValue :=
  match Str.toUpperCase s with
  | Some upper => Normal (JString upper)
  | None => Beyond
  end.

Fixpoint firstMatcher (ms : list ((string -> option ascii) * (ascii -> string)))
    (token : string) : option (Completion JsValue) :=
  match ms with
  | [] => None
  | (pattern, formatter) :: rest =>
      match pattern token with
      | Some c => Some (upperCased (formatter c))
      | None => firstMatcher rest token
      end
  end.

(** A token that is not a string has no [match] method to call. *)
Definition formatBindingForDisplay (token : JsValue) : Completion JsValue :=
  match token with
  | JString t =>
      match firstMatcher matchers t with
      | Some label => label
      | None =>
          if truthy (js_get specialLabels t) then Normal (js_get specialLabels t)
          else upperCased t
      end
  | _ => Throw TypeError
  end.

(** [formatBindingForDisplay(token).toLowerCase()] *)
Definition toConfigLabel (token : JsValue) : Completion JsValue :=
  match formatBindingForDisplay token with
  | Normal (JString label) => Normal (JString (Str.toLowerCase label))
  | Normal _ => Throw TypeError
  | Throw e => Throw e
  | Beyond => Beyond
  end.

(** [keybindings.FIELD = toConfigLabel(bindings.action)] *)
Definition assignLabel (field : string) (bindings : RuntimeKeybindings) (action : string)
  : M unit :=
  fun w =>
    match config_keybindings w with
    | None => (Normal tt, w)
    | Some table =>
        match toConfigLabel (js_get bindings action) with
        | Normal label =>
            (Normal tt,
             mkWindow (localStorage w) (Some (js_set table field label)) (dispatched w))
        | Throw e => (Throw e, w)
        | Beyond => (Beyond, w)
        end
    end.

Definition syncSharedKeybindingDisplayConfig (bindings : RuntimeKeybindings) : M unit :=
  fun w =>
    match config_keybindings w with
    | None => (Normal tt, w)
    | Some _ =>
        (assignLabel "INTERACT" bindings "interact" ;;;
         assignLabel "DROP" bindings "dropItem" ;;;
         assignLabel "QUICK_HEAL" bindings "quickHeal" ;;;
         assignLabel "SPRINT" bindings "sprint" ;;;
         assignLabel "CHAT" bindings "chat" ;;;
         assignLabel "PLAYER_LIST" bindings "playerList" ;;;
         assignLabel "WEAPONS_HUD" bindings "weaponsHud" ;;;
         assignLabel "QUICK_SWITCH" bindings "quickSwitchWeapon" ;;;
         assignLabel "TOGGLE_INSTRUCTIONS" bindings "controlsPanel" ;;;
         (fun w' =>
            (Normal tt,
             mkWindow (localStorage w')
                      (option_map (fun table => js_set table "TOGGLE_MUTE" (JString "n"))
                                  (config_keybindings w'))
                      (dispatched w')))) w
    end.

Definition emitBindingsUpdated : M unit :=
  dispatchEvent RUNTIME_KEYBINDINGS_UPDATED_EVENT.

(* ================================================================== *)
(** ** Persistence *)

Section Persistence.

(** The platform's JSON reader and writer.  [JSON_parse] is [None] where
    JSON.parse throws a SyntaxError; [JSON_stringify] is applied to the
    sanitised mapping only, for which JSON.stringify returns a string. *)
Variable JSON_parse : string -> option JsValue.
Variable JSON_stringify : JsValue -> string.

Definition parseJSON (raw : JsValue) : M JsValue :=
  match raw with
  | JString text =>
      match JSON_parse text with
      | Some v => ret v
      | None => throw SyntaxError
      end
  | _ => throw SyntaxError
  end.

Definition loadRuntimeKeybindings (world : World)
  : Completion RuntimeKeybindings * World :=
  let defaults := DEFAULT_RUNTIME_KEYBINDINGS in
  match world with
  | None => (Normal defaults, None)
  | Some w =>
      let '(result, w') :=
        tryCatch
          (raw <- localStorage_getItem ;;
           if negb (truthy raw) then
             syncSharedKeybindingDisplayConfig defaults ;;;
             ret defaults
           else
             parsed <- parseJSON raw ;;
             let sanitized := sanitizeBindings parsed in
             syncSharedKeybindingDisplayConfig sanitized ;;;
             ret sanitized)
          (syncSharedKeybindingDisplayConfig defaults ;;;
           ret defaults) w
      in (result, Some w')
  end.

Definition saveRuntimeKeybindings (bindings : JsValue) (world : World)
  : Completion RuntimeKeybindings * World :=
  let sanitized := sanitizeBindings bindings in
  match world with
  | None => (Normal sanitized, None)
  | Some w =>
      let '(result, w') :=
        (tryCatch
           (localStorage_setItem (JSON_stringify (JObject sanitized)))
           (ret tt) ;;;
         syncSharedKeybindingDisplayConfig sanitized ;;;
         emitBindingsUpdated ;;;
         ret sanitized) w
      in (result, Some w')
  end.

Definition resetRuntimeKeybindings (world : World)
  : Completion RuntimeKeybindings * World :=
  saveRuntimeKeybindings (JObject DEFAULT_RUNTIME_KEYBINDINGS) world.

End Persistence.

(* ================================================================== *)
(** ** The controls panel: the caller of the module

    The state of the InstructionPanel component and the handlers that call
    the module.  A handler maps the state it closed over to the state after
    its setter calls, in the window. *)

Module InstructionPanel.

Definition ACTION_LABELS : list (string * JsValue) :=
  [ ("moveUp", JString "Move Up");
    ("moveLeft", JString "Move Left");
    ("moveDown", JString "Move Down");
    ("moveRight", JString "Move Right");
    ("sprint", JString "Sprint");
    ("interact", JString "Interact");
    ("teleportToBase", JString "Teleport to Base");
    ("quickHeal", JString "Quick Heal");
    ("dropItem", JString "Drop Item");
    ("splitDropItem", JString "Split Drop Item");
    ("weaponsHud", JString "Weapons HUD");
    ("quickSwitchWeapon", JString "Quick Switch Weapon");
    ("chat", JString "Chat");
    ("playerList", JString "Player List");
    ("controlsPanel", JString "Controls") ].

(** The three error texts.  The third is a template; its two interpolated
    values are kept. *)
Inductive Message : Type :=
| UnsupportedKey                            (* That key is not supported. ... *)
| ReservedKey                               (* That key is reserved (...). *)
| AlreadyUses (owner : JsValue) (key : JsValue).   (* <owner> already uses <key>. *)

Record State : Type := mkState {
  bindings : RuntimeKeybindings;
  listeningActionId : option string;
  errorMessage : option Message
}.

(** A function of the module, called where the window exists. *)
Definition onWindow {A : Type} (f : World -> Completion A * World) : M A :=
  fun w =>
    let '(c, world') := f (Some w) in
    (c, match world' with Some w' => w' | None => w end).

Section Handlers.

Variable JSON_parse : string -> option JsValue.
Variable JSON_stringify : JsValue -> string.

(** [handleCaptureKey], for the action being rebound; [key] and [code] are
    the event's.  The update event that [saveRuntimeKeybindings] dispatches
    reaches the panel's own listener, which loads the mapping; the
    [setBindings(next)] that follows decides the state. *)
Definition handleCaptureKey (actionId : string) (key code : string) (state : State)
  : M State :=
  if String.eqb key "Escape" then ret (mkState (bindings state) None None)
  else
    let candidate := normalizeCapturedKey code in
    if negb (truthy candidate) then
      ret (mkState (bindings state) (listeningActionId state) (Some UnsupportedKey))
    else if isReservedBinding candidate then
      ret (mkState (bindings state) (listeningActionId state) (Some ReservedKey))
    else
      match findBindingConflict (bindings state) actionId candidate with
      | Some conflict =>
          label <- (fun w => (formatBindingForDisplay candidate, w)) ;;
          ret (mkState (bindings state) (listeningActionId state)
                 (Some (AlreadyUses (js_get ACTION_LABELS conflict) label)))
      | None =>
          next <- onWindow (saveRuntimeKeybindings JSON_stringify
                              (JObject (js_set (bindings state) actionId candidate))) ;;
          onWindow (loadRuntimeKeybindings JSON_parse) ;;;
          ret (mkState next None None)
      end.

(** The capturing keydown listener is attached while the panel is open and
    an action is being rebound. *)
Definition keydown (isOpen : bool) (key code : string) (state : State) : M State :=
  if isOpen then
    match listeningActionId state with
    | Some actionId => handleCaptureKey actionId key code state
    | None => ret state
    end
  else ret state.

(** [onStartListening(actionId)] *)
Definition startListening (actionId : string) (state : State) : State :=
  mkState (bindings state) (Some actionId) None.

(** The click handler of "Reset to Defaults". *)
Definition resetClicked (state : State) : M State :=
  next <- onWindow (resetRuntimeKeybindings JSON_stringify) ;;
  onWindow (loadRuntimeKeybindings JSON_parse) ;;;
  ret (mkState next None None).

(** The effect on [isOpen]. *)
Definition openChanged (isOpen : bool) (state : State) : M State :=
  if negb isOpen then ret (mkState (bindings state) None None)
  else
    loaded <- onWindow (loadRuntimeKeybindings JSON_parse) ;;
    ret (mkState loaded (listeningActionId state) (errorMessage state)).

End Handlers.

End InstructionPanel.

(* ================================================================== *)
(** * Vocabulary of the properties *)

(** ** The canonical vocabulary *)

Definition upperLetters : list ascii :=
  list_ascii_of_string "ABCDEFGHIJKLMNOPQRSTUVWXYZ".
Definition decimalDigits : list ascii :=
  list_ascii_of_string "0123456789".

(** Every string the whitelist patterns accept. *)
Definition whitelistTokens : list string :=
  map (fun c => "Key" ++ String c "")%string upperLetters
  ++ map (fun c => "Digit" ++ String c "")%string decimalDigits
  ++ map (fun c => "Numpad" ++ String c "")%string decimalDigits
  ++ arrowKeys ++ namedKeys ++ bracketKeys ++ punctuationKeys.

(** The values of the alias table. *)
Definition aliasTokens : list string :=
  ["Shift"; "Control"; "Alt"; "Meta"; "Enter"; "Tab"; "Space"; "Escape"].

(** The canonical vocabulary: every string [normalizeBindingToken] returns. *)
Definition canonicalTokens : list string := aliasTokens ++ whitelistTokens.

(** ** Conflict check *)

(** [id] is another action than [actionId], bound to exactly [candidate]. *)
Definition holdsCandidate (bindings : RuntimeKeybindings) (actionId : string)
    (candidate : JsValue) (id : string) : Prop :=
  id <> actionId /\ strict_equals (js_get bindings id) candidate = true.

(** ** Sanitiser *)

(** What a slot of the sanitised mapping can hold: a string, or an intrinsic
    object that the alias look-up returned. *)
Definition slotValue (v : JsValue) : Prop :=
  match v with
  | JString _ | JIntrinsic _ => True
  | _ => False
  end.

(** A value fit for a slot: what the defaults hold and what the loop commits. *)
Definition settled (v : JsValue) : Prop :=
  slotValue v /\ isReservedBinding v = false
  /\ forall t, v = JString t -> In t canonicalTokens.

(** The loop invariant: distinct keys, distinct values, and [seen] holds
    exactly the values of [sanitized]. *)
Definition consistent (sanitized : RuntimeKeybindings) (seen : JsSet) : Prop :=
  NoDup (map fst sanitized)
  /\ NoDup (map snd sanitized)
  /\ (forall v, In v seen <-> In v (map snd sanitized))
  /\ Forall settled (map snd sanitized).

(** Whether the iteration for [actionId] commits the candidate's token. *)
Definition commits (record : JsValue) (actionId : string) (previous : JsValue)
    (seen : JsSet) : bool :=
  let normalized := normalizeBindingToken (record_get record actionId) in
  JsType_eqb (typeof (record_get record actionId)) TyString
  && truthy normalized
  && negb (isReservedBinding normalized)
  && negb (Set_has (Set_delete seen previous) normalized).

(** [Repaired todo result]: [result] has the keys of [todo], in order, and
    none of its values is the value [todo] holds under a later key. *)
Inductive Repaired : RuntimeKeybindings -> RuntimeKeybindings -> Prop :=
| Repaired_nil : Repaired [] []
| Repaired_cons (a : string) (d v : JsValue) (todo result : RuntimeKeybindings) :
    ~ In v (map snd todo) ->
    Repaired todo result ->
    Repaired ((a, d) :: todo) ((a, v) :: result).

(** The object test at the head of [sanitizeBindings]. *)
Definition isRecord (value : JsValue) : bool :=
  truthy value && JsType_eqb (typeof value) TyObject.

(** A settled value that is a string. *)
Definition settledToken (v : JsValue) : Prop :=
  settled v /\ exists t, v = JString t.

(** ** The platform's JSON round trip *)

(** Whether JSON.stringify writes a property that holds [v]: functions and
    [undefined] are left out of objects (and written as null in arrays). *)
Definition serializable (v : JsValue) : bool :=
  match typeof v with
  | TyUndefined | TyFunction => false
  | _ => true
  end.

(** What JSON.parse reads back from the text JSON.stringify wrote for [v]
    (for [undefined] and functions JSON.stringify writes no text). *)
Fixpoint jsonImage (v : JsValue) : JsValue :=
  match v with
  | JNumber n =>
      if PrimFloat.is_nan n || PrimFloat.is_infinity n then JNull
      else if PrimFloat.is_zero n then JNumber PrimFloat.zero
      else JNumber n
  | JArray items =>
      JArray (map (fun x => if serializable x then jsonImage x else JNull) items)
  | JObject props =>
      JObject ((fix members (ps : list (string * JsValue)) : list (string * JsValue) :=
                  match ps with
                  | [] => []
                  | (k, x) :: rest =>
                      if serializable x then (k, jsonImage x) :: members rest
                      else members rest
                  end) props)
  | JIntrinsic ObjectPrototype => JObject []
  | JIntrinsic _ => JUndefined
  | other => other
  end.

(** ** Label synchronisation *)

(** The actions whose labels [syncSharedKeybindingDisplayConfig] writes. *)
Definition syncedActions : list string :=
  [ "interact"; "dropItem"; "quickHeal"; "sprint"; "chat"; "playerList";
    "weaponsHud"; "quickSwitchWeapon"; "controlsPanel" ].

Definition completes {A : Type} (c : Completion A) : bool :=
  match c with Normal _ => true | Throw _ | Beyond => false end.

(** Every label the synchronisation needs can be computed. *)
Definition labelled (bindings : RuntimeKeybindings) : bool :=
  forallb (fun action => completes (toConfigLabel (js_get bindings action))) syncedActions.

(** Every label the synchronisation needs stays within the strings of this
    development. *)
Definition within (bindings : RuntimeKeybindings) : Prop :=
  forall a, In a syncedActions -> toConfigLabel (js_get bindings a) <> Beyond.

(** A writer and a reader for flat documents (an object whose members are
    strings without escapes, or empty objects), in JSON syntax: an instance
    of the platform's functions on the documents this module stores. *)
Module FlatJSON.

Definition dquote : ascii := "034"%char.
Definition backslash : ascii := "092"%char.

Definition quoted (s : string) : string := String dquote (s ++ String dquote "").

Definition member (k : string) (v : JsValue) : string :=
  (quoted k ++ ":" ++
   match v with
   | JString s => quoted s
   | JIntrinsic ObjectPrototype | JObject [] => "{}"
   | _ => "null"
   end)%string.

Fixpoint members (props : list (string * JsValue)) : string :=
  match props with
  | [] => ""
  | (k, v) :: rest =>
      if serializable v then
        match members rest with
        | EmptyString => member k v
        | more => (member k v ++ "," ++ more)%string
        end
      else members rest
  end.

Definition stringify (v : JsValue) : string :=
  match v with
  | JObject props => ("{" ++ members props ++ "}")%string
  | _ => "null"
  end.

Fixpoint readUntilQuote (s : string) : option (string * string) :=
  match s with
  | EmptyString => None
  | String c rest =>
      if Ascii.eqb c dquote then Some (EmptyString, rest)
      else if Ascii.eqb c backslash then None
      else match readUntilQuote rest with
           | Some (text, after) => Some (String c text, after)
           | None => None
           end
  end.

Definition readString (s : string) : option (string * string) :=
  match s with
  | String c rest => if Ascii.eqb c dquote then readUntilQuote rest else None
  | EmptyString => None
  end.

Definition readValue (s : string) : option (JsValue * string) :=
  match s with
  | String "{" (String "}" after) => Some (JObject [], after)
  | String "n" (String "u" (String "l" (String "l" after))) => Some (JNull, after)
  | _ => match readString s with
         | Some (text, after) => Some (JString text, after)
         | None => None
         end
  end.

Fixpoint readMembers (fuel : nat) (s : string) : option (list (string * JsValue)) :=
  match fuel with
  | O => None
  | S fuel' =>
      match readString s with
      | Some (k, String ":" afterColon) =>
          match readValue afterColon with
          | Some (v, String "," more) =>
              option_map (cons (k, v)) (readMembers fuel' more)
          | Some (v, String "}" EmptyString) => Some [(k, v)]
          | _ => None
          end
      | _ => None
      end
  end.

Definition parse (s : string) : option JsValue :=
  match s with
  | String "{" (String "}" EmptyString) => Some (JObject [])
  | String "{" rest => option_map JObject (readMembers (String.length rest) rest)
  | _ => None
  end.

End FlatJSON.

(** The default mapping with the slot of moveUp asking for "constructor": a
    well-typed [RuntimeKeybindings]. *)
Definition constructorMapping : JsValue :=
  JObject (js_set DEFAULT_RUNTIME_KEYBINDINGS "moveUp" (JString "constructor")).

(** ** Physical key codes *)

(** The left and right codes of the four logical modifier tokens. *)
Definition modifierCodes : list string :=
  [ "ShiftLeft"; "ShiftRight"; "ControlLeft"; "ControlRight";
    "AltLeft"; "AltRight"; "MetaLeft"; "MetaRight" ].

(** The reserved check of [isReservedBinding] against any set of reserved
    codes; the function itself is the instance at [RESERVED_CODES]. *)
Definition reservedAmong (reserved : JsSet) (token : JsValue) : bool :=
  existsb (fun code => Set_has reserved code) (getBindingEventCodes token).

(** The event codes in canonical spelling: the whitelisted codes, Escape and
    the modifier codes. *)
Definition canonicalCodes : list string := whitelistTokens ++ "Escape" :: modifierCodes.

(** ** Fields of the legacy label table *)

(** The fields [syncSharedKeybindingDisplayConfig] computes, each with the
    action whose binding it shows. *)
Definition labelFields : list (string * string) :=
  [ ("INTERACT", "interact"); ("DROP", "dropItem"); ("QUICK_HEAL", "quickHeal");
    ("SPRINT", "sprint"); ("CHAT", "chat"); ("PLAYER_LIST", "playerList");
    ("WEAPONS_HUD", "weaponsHud"); ("QUICK_SWITCH", "quickSwitchWeapon");
    ("TOGGLE_INSTRUCTIONS", "controlsPanel") ].

(** The storage after [setItem(KEY, text)] was attempted: a failed write
    leaves it as it was. *)
Definition storageAfterWrite (st : Storage) (text : string) : Storage :=
  mkStorage (blocked st) (full st)
            (if blocked st || full st then entry st else Some text).

(* ================================================================== *)
(** * Properties *)

(* ================================================================== *)
(** ** Basic facts about values, strings and look-ups *)

Lemma strict_equals_string (v : JsValue) (s : string) :
  strict_equals v (JString s) = true <-> v = JString s.
Proof.
  destruct v; simpl; split; intros H; try discriminate.
  - apply String.eqb_eq in H. now subst.
  - injection H as ->. apply String.eqb_refl.
Qed.

Lemma sameValueZero_string (v : JsValue) (s : string) :
  sameValueZero v (JString s) = true <-> v = JString s.
Proof.
  destruct v; apply strict_equals_string.
Qed.

Lemma own_In {A : Type} (props : list (string * A)) (key : string) (v : A) :
  own props key = Some v -> In (key, v) props.
Proof.
  induction props as [|[k x] rest IH]; simpl; [discriminate|].
  destruct (String.eqb k key) eqn:E.
  - intros [= ->]. apply String.eqb_eq in E. subst. now left.
  - intros H. right. now apply IH.
Qed.

Lemma inherited_not_string (key s : string) : inherited key <> JString s.
Proof.
  unfold inherited.
  destruct (String.eqb key "constructor"); [discriminate|].
  destruct (String.eqb key "__proto__"); [discriminate|].
  destruct (Str.oneOf Object_prototype_methods key); discriminate.
Qed.

Lemma oneOf_In (alternatives : list string) (s : string) :
  Str.oneOf alternatives s = true <-> In s alternatives.
Proof.
  unfold Str.oneOf. rewrite existsb_exists. split.
  - intros (x & Hin & E). apply String.eqb_eq in E. now subst.
  - intros Hin. exists s. split; [assumption | apply String.eqb_refl].
Qed.

Lemma prefixThenOne_Some (prefix : string) (cls : ascii -> bool) (s : string) (c : ascii) :
  Str.prefixThenOne prefix cls s = Some c ->
  s = (prefix ++ String c "")%string /\ cls c = true.
Proof.
  revert s. induction prefix as [|p prefix IH]; intros s; simpl.
  - destruct s as [|c0 [|]]; try discriminate.
    destruct (cls c0) eqn:E; [|discriminate].
    intros [= ->]. now split.
  - destruct s as [|c0 rest]; [discriminate|].
    destruct (Ascii.eqb p c0) eqn:E; [|discriminate].
    apply Ascii.eqb_eq in E. subst c0.
    intros H. destruct (IH _ H) as [-> Hc]. now split.
Qed.

Ltac each_char c :=
  destruct c as [[|] [|] [|] [|] [|] [|] [|] [|]].

Lemma isUpperAZ_In (c : ascii) : Str.isUpperAZ c = true -> In c upperLetters.
Proof.
  each_char c; vm_compute; intros H; try discriminate H; tauto.
Qed.

Lemma isDigit09_In (c : ascii) : Str.isDigit09 c = true <-> In c decimalDigits.
Proof.
  split.
  - each_char c; vm_compute; intros H; try discriminate H; tauto.
  - intros H. vm_compute in H.
    repeat (destruct H as [<- | H]; [reflexivity|]). contradiction.
Qed.

Lemma matchesWhitelist_In (raw : string) :
  matchesWhitelist raw = true -> In raw whitelistTokens.
Proof.
  unfold matchesWhitelist, whitelistTokens. intros H.
  repeat rewrite orb_true_iff in H. repeat rewrite in_app_iff.
  destruct H as [[[[[[H|H]|H]|H]|H]|H]|H].
  - destruct (Str.prefixThenOne "Key" Str.isUpperAZ raw) as [c|] eqn:E; [|discriminate].
    apply prefixThenOne_Some in E as [-> Hc]. left.
    apply in_map_iff. exists c. split; [reflexivity | now apply isUpperAZ_In].
  - destruct (Str.prefixThenOne "Digit" Str.isDigit09 raw) as [c|] eqn:E; [|discriminate].
    apply prefixThenOne_Some in E as [-> Hc]. right; left.
    apply in_map_iff. exists c. split; [reflexivity | now apply isDigit09_In].
  - destruct (Str.prefixThenOne "Numpad" Str.isDigit09 raw) as [c|] eqn:E; [|discriminate].
    apply prefixThenOne_Some in E as [-> Hc]. right; right; left.
    apply in_map_iff. exists c. split; [reflexivity | now apply isDigit09_In].
  - apply oneOf_In in H. tauto.
  - apply oneOf_In in H. tauto.
  - apply oneOf_In in H. tauto.
  - apply oneOf_In in H. tauto.
Qed.

Lemma alias_string_In (key t : string) :
  js_get CANONICAL_ALIASES key = JString t -> In t aliasTokens.
Proof.
  unfold js_get. destruct (own CANONICAL_ALIASES key) as [v|] eqn:E.
  - intros ->. apply own_In in E. simpl in E.
    repeat (destruct E as [E|E]; [injection E as _ <-; simpl; tauto|]).
    contradiction.
  - intros H. now apply inherited_not_string in H.
Qed.

(** What [normalizeBindingToken] returns is [null], a string of the canonical
    vocabulary, or an intrinsic object found through the alias look-up. *)
Lemma normalize_string_canonical (token : JsValue) (t : string) :
  normalizeBindingToken token = JString t -> In t canonicalTokens.
Proof.
  unfold normalizeBindingToken, canonicalTokens. rewrite in_app_iff.
  destruct token; try discriminate.
  destruct (negb (truthy (JString s))); [discriminate|].
  destruct (negb (truthy (JString (Str.trim s)))); [discriminate|].
  destruct (truthy (js_get CANONICAL_ALIASES (Str.toLowerCase (Str.trim s)))).
  - intros H. left. eapply alias_string_In, H.
  - destruct (matchesWhitelist (Str.trim s)) eqn:W; [|discriminate].
    intros [= <-]. right. now apply matchesWhitelist_In.
Qed.

Lemma canonical_fixed (t : string) :
  In t canonicalTokens -> normalizeBindingToken (JString t) = JString t.
Proof.
  intros H.
  assert (A : forallb (fun x => strict_equals (normalizeBindingToken (JString x)) (JString x))
                canonicalTokens = true) by (vm_compute; reflexivity).
  rewrite forallb_forall in A. now apply strict_equals_string, A.
Qed.

(* ================================================================== *)
(** ** Normaliser *)

(** C5.  The alias table has an entry for the string made of one space, with
    value Space; but [normalizeBindingToken] trims its input before the
    look-up, so that string is rejected ([null]) and the entry is never
    reached. *)
Theorem normalize_single_space_rejected :
  own CANONICAL_ALIASES " " = Some (JString "Space")
  /\ Str.trim " " = ""
  /\ normalizeBindingToken (JString " ") = JNull.
Proof. repeat split. Qed.

(** C10.  Not every output of [normalizeBindingToken] is a fixed point of
    it.  For "constructor" it returns the function Object and for "__proto__"
    it returns Object.prototype, neither of them a rejection, and normalising
    either returns [null].  An output other than [null] is a fixed point
    exactly when it is a string.  Reserved tokens are not rejected at this
    stage: "Escape" normalises to "Escape", which the reserved check then
    refuses. *)
Theorem normalize_output_not_fixed_point :
  normalizeBindingToken (JString "constructor") = JIntrinsic ObjectConstructor
  /\ normalizeBindingToken (JIntrinsic ObjectConstructor) = JNull
  /\ normalizeBindingToken (JString "__proto__") = JIntrinsic ObjectPrototype
  /\ normalizeBindingToken (JIntrinsic ObjectPrototype) = JNull
  /\ (forall s : string,
         normalizeBindingToken (JString s) <> JNull ->
         (normalizeBindingToken (normalizeBindingToken (JString s))
          = normalizeBindingToken (JString s)
          <-> typeof (normalizeBindingToken (JString s)) = TyString))
  /\ normalizeBindingToken (JString "Escape") = JString "Escape"
  /\ isReservedBinding (JString "Escape") = true.
Proof.
  split; [reflexivity|]. split; [reflexivity|]. split; [reflexivity|].
  split; [reflexivity|]. split; [|split; reflexivity].
  intros s Hn.
  destruct (normalizeBindingToken (JString s)) as [| |b|n|t|items|props|i] eqn:E;
    try (now elim Hn);
    try (split; [discriminate | destruct i; discriminate]);
    try (split; discriminate).
  split; [reflexivity|]. intros _.
  apply canonical_fixed. eapply normalize_string_canonical, E.
Qed.

Lemma lowerChar_whitespace (c : ascii) :
  Str.isWhiteSpace (Str.lowerChar c) = Str.isWhiteSpace c.
Proof. each_char c; reflexivity. Qed.

Lemma toLowerCase_empty (s : string) : Str.toLowerCase s = "" <-> s = "".
Proof. destruct s; simpl; split; intros H; try discriminate; reflexivity. Qed.

Lemma trimStart_toLowerCase (s : string) :
  Str.toLowerCase (Str.trimStart s) = Str.trimStart (Str.toLowerCase s).
Proof.
  induction s as [|c rest IH]; simpl; [reflexivity|].
  rewrite lowerChar_whitespace.
  destruct (Str.isWhiteSpace c); [assumption | reflexivity].
Qed.

Lemma trimEnd_toLowerCase (s : string) :
  Str.toLowerCase (Str.trimEnd s) = Str.trimEnd (Str.toLowerCase s).
Proof.
  induction s as [|c rest IH]; simpl; [reflexivity|].
  rewrite <- IH, lowerChar_whitespace.
  destruct (Str.trimEnd rest) as [|k kept]; simpl.
  - destruct (Str.isWhiteSpace c); reflexivity.
  - reflexivity.
Qed.

(** Trimming and lower-casing commute: white space has no case. *)
Lemma trim_toLowerCase (s : string) :
  Str.toLowerCase (Str.trim s) = Str.trim (Str.toLowerCase s).
Proof. unfold Str.trim. now rewrite trimEnd_toLowerCase, trimStart_toLowerCase. Qed.

(** A string whose trimmed, lower-cased form is an own key of the alias table
    normalises to the entry's value. *)
Lemma normalize_alias (s key : string) (v : JsValue) :
  Str.toLowerCase (Str.trim s) = key ->
  own CANONICAL_ALIASES key = Some v ->
  truthy v = true ->
  key <> "" ->
  normalizeBindingToken (JString s) = v.
Proof.
  intros Hkey Hown Hv Hne. unfold normalizeBindingToken.
  assert (Ht : Str.trim s <> "").
  { intros E. rewrite E in Hkey. simpl in Hkey. now subst key. }
  assert (Hs : s <> "").
  { intros E. subst s. now apply Ht. }
  replace (truthy (JString s)) with true
    by (simpl; destruct (String.eqb_spec s ""); [contradiction | reflexivity]).
  replace (truthy (JString (Str.trim s))) with true
    by (simpl; destruct (String.eqb_spec (Str.trim s) ""); [contradiction | reflexivity]).
  simpl negb. cbv iota. rewrite Hkey. unfold js_get. rewrite Hown, Hv. reflexivity.
Qed.

(* ================================================================== *)
(** ** Reserved check *)

Lemma Set_has_RESERVED (code : JsValue) :
  Set_has RESERVED_CODES code = true <-> In code RESERVED_CODES.
Proof.
  unfold Set_has, RESERVED_CODES. rewrite existsb_exists. split.
  - intros (x & Hin & E). apply in_map_iff in Hin as (s & <- & Hs).
    apply sameValueZero_string in E. subst code. apply in_map_iff. now exists s.
  - intros Hin. exists code. split; [assumption|].
    apply in_map_iff in Hin as (s & <- & _). now apply sameValueZero_string.
Qed.

Lemma isReservedBinding_iff (token : JsValue) :
  isReservedBinding token = true <->
  exists code, In code (getBindingEventCodes token) /\ In code RESERVED_CODES.
Proof.
  unfold isReservedBinding. rewrite existsb_exists.
  split; intros (code & Hc & Hr); exists code; split; try assumption;
    now apply Set_has_RESERVED.
Qed.

(** C7.  [isReservedBinding token] holds exactly when one of the physical
    codes of [token] is in the reserved set; the reserved set holds exactly
    Escape, KeyM, Digit0-Digit9 and Numpad0-Numpad9 (22 distinct codes); the
    four logical modifier tokens are not reserved. *)
Theorem isReservedBinding_spec :
  (forall token : JsValue,
      isReservedBinding token = true <->
      exists code, In code (getBindingEventCodes token) /\ In code RESERVED_CODES)
  /\ (forall code : JsValue,
         In code RESERVED_CODES <->
         code = JString "Escape" \/ code = JString "KeyM"
         \/ exists d : ascii, Str.isDigit09 d = true
              /\ (code = JString ("Digit" ++ String d "")
                  \/ code = JString ("Numpad" ++ String d "")))
  /\ NoDup RESERVED_CODES /\ List.length RESERVED_CODES = 22
  /\ isReservedBinding (JString "Shift") = false
  /\ isReservedBinding (JString "Control") = false
  /\ isReservedBinding (JString "Alt") = false
  /\ isReservedBinding (JString "Meta") = false.
Proof.
  split; [exact isReservedBinding_iff|].
  split; [|split; [|repeat split]].
  - intros code. split.
    + intros H. simpl in H.
      destruct H as [<-|[<-|H]]; [tauto | tauto |]. right; right.
      repeat (destruct H as [<-|H];
              [ first [ exists "0"%char; split; [reflexivity | simpl; tauto]
                      | exists "1"%char; split; [reflexivity | simpl; tauto]
                      | exists "2"%char; split; [reflexivity | simpl; tauto]
                      | exists "3"%char; split; [reflexivity | simpl; tauto]
                      | exists "4"%char; split; [reflexivity | simpl; tauto]
                      | exists "5"%char; split; [reflexivity | simpl; tauto]
                      | exists "6"%char; split; [reflexivity | simpl; tauto]
                      | exists "7"%char; split; [reflexivity | simpl; tauto]
                      | exists "8"%char; split; [reflexivity | simpl; tauto]
                      | exists "9"%char; split; [reflexivity | simpl; tauto] ] |]).
      contradiction.
    + intros [->|[->|(d & Hd & H)]]; [simpl; tauto | simpl; tauto |].
      apply isDigit09_In in Hd. simpl in Hd.
      repeat (destruct Hd as [<-|Hd]; [destruct H as [->| ->]; simpl; tauto|]).
      contradiction.
  - unfold RESERVED_CODES.
    repeat (apply NoDup_cons;
            [ simpl; intros H;
              repeat (destruct H as [H|H]; [discriminate H|]); contradiction |]).
    apply NoDup_nil.
Qed.

(* ================================================================== *)
(** ** Conflict check *)

Section Conflict.

Variable bindings : RuntimeKeybindings.
Variable actionId : string.
Variable candidate : JsValue.

Lemma conflict_from_Some (ids : list string) (id : string) :
  findBindingConflict_from ids bindings actionId candidate = Some id <->
  exists before after,
    ids = before ++ id :: after
    /\ holdsCandidate bindings actionId candidate id
    /\ forall x, In x before -> ~ holdsCandidate bindings actionId candidate x.
Proof.
  unfold holdsCandidate. split.
  - induction ids as [|i rest IH]; simpl; [discriminate|].
    destruct (String.eqb_spec i actionId) as [E|N].
    + intros H. destruct (IH H) as (before & after & -> & Hid & Hb).
      exists (i :: before), after. repeat split; try apply Hid.
      intros x [<-|Hx]; [tauto | now apply Hb].
    + destruct (strict_equals (js_get bindings i) candidate) eqn:S.
      * intros [= <-]. exists [], rest. repeat split; try assumption.
        intros x [].
      * intros H. destruct (IH H) as (before & after & -> & Hid & Hb).
        exists (i :: before), after. repeat split; try apply Hid.
        intros x [<-|Hx]; [rewrite S; intros [_ F]; discriminate F | now apply Hb].
  - intros (before & after & -> & [Hne Heq] & Hb).
    induction before as [|x before IH]; simpl.
    + destruct (String.eqb_spec id actionId); [contradiction|]. now rewrite Heq.
    + assert (Hx : ~ (x <> actionId /\ strict_equals (js_get bindings x) candidate = true))
        by (apply Hb; now left).
      assert (IH' := IH (fun y Hy => Hb y (or_intror Hy))).
      destruct (String.eqb_spec x actionId); [exact IH'|].
      destruct (strict_equals (js_get bindings x) candidate); [tauto | exact IH'].
Qed.

Lemma conflict_from_None (ids : list string) :
  findBindingConflict_from ids bindings actionId candidate = None <->
  forall id, In id ids -> ~ holdsCandidate bindings actionId candidate id.
Proof.
  unfold holdsCandidate. induction ids as [|i rest IH]; simpl.
  - split; [intros _ id [] | reflexivity].
  - destruct (String.eqb_spec i actionId) as [E|N].
    + rewrite IH. split.
      * intros H id [<-|Hid]; [tauto | now apply H].
      * intros H id Hid. apply H. now right.
    + destruct (strict_equals (js_get bindings i) candidate) eqn:S.
      * split; [discriminate|]. intros H. exfalso. apply (H i); [now left | tauto].
      * rewrite IH. split.
        -- intros H id [<-|Hid]; [rewrite S; intros [_ F]; discriminate F | now apply H].
        -- intros H id Hid. apply H. now right.
Qed.

End Conflict.

(** C8.  [findBindingConflict bindings a c] returns the first action id, in
    the registry's declaration order, that differs from [a] and is bound to
    exactly [c]; it returns nothing exactly when no other action is bound to
    [c]; it never returns [a].  The declaration order is that of the default
    mapping.  On the default mapping, the conflict of "interact" with the key
    of "chat" is "chat". *)
Theorem findBindingConflict_spec (bindings : RuntimeKeybindings) (a : string) (c : JsValue) :
  (forall id,
      findBindingConflict bindings a c = Some id <->
      exists before after,
        REBINDABLE_ACTION_IDS = before ++ id :: after
        /\ holdsCandidate bindings a c id
        /\ forall x, In x before -> ~ holdsCandidate bindings a c x)
  /\ (findBindingConflict bindings a c = None <->
      forall id, In id REBINDABLE_ACTION_IDS -> ~ holdsCandidate bindings a c id)
  /\ findBindingConflict bindings a c <> Some a
  /\ REBINDABLE_ACTION_IDS
     = [ "moveUp"; "moveLeft"; "moveDown"; "moveRight"; "sprint"; "interact";
         "teleportToBase"; "quickHeal"; "dropItem"; "splitDropItem"; "weaponsHud";
         "quickSwitchWeapon"; "chat"; "playerList"; "controlsPanel" ]
  /\ findBindingConflict DEFAULT_RUNTIME_KEYBINDINGS "interact"
       (js_get DEFAULT_RUNTIME_KEYBINDINGS "chat") = Some "chat".
Proof.
  split; [|split; [|split; [|split]]].
  - intros id. apply conflict_from_Some.
  - apply conflict_from_None.
  - intros H. apply conflict_from_Some in H as (_ & _ & _ & [Hne _] & _). now apply Hne.
  - reflexivity.
  - reflexivity.
Qed.

(* ================================================================== *)
(** ** Logical modifier tokens *)

Lemma matchesBinding_Shift (code : JsValue) :
  matchesBinding code (JString "Shift") = true <->
  code = JString "ShiftLeft" \/ code = JString "ShiftRight".
Proof.
  unfold matchesBinding. simpl. rewrite !orb_true_iff, !sameValueZero_string.
  intuition discriminate.
Qed.

(** Two tokens of the canonical vocabulary that share a physical code are
    the same token: on canonical tokens, comparing tokens is comparing the
    physical keys they occupy. *)
Lemma canonical_codes_disjoint (t u : string) :
  In t canonicalTokens -> In u canonicalTokens ->
  (exists code, In code (getBindingEventCodes (JString t))
                /\ In code (getBindingEventCodes (JString u))) ->
  t = u.
Proof.
  intros Ht Hu (code & Hc1 & Hc2).
  assert (A : forallb (fun x => forallb (fun y =>
                 implb (existsb (fun c => existsb (strict_equals c)
                                            (getBindingEventCodes (JString y)))
                                (getBindingEventCodes (JString x)))
                       (String.eqb x y)) canonicalTokens) canonicalTokens = true)
    by (vm_compute; reflexivity).
  rewrite forallb_forall in A. specialize (A t Ht).
  rewrite forallb_forall in A. specialize (A u Hu).
  apply String.eqb_eq. rewrite implb_true_iff in A. apply A.
  apply existsb_exists. exists code. split; [assumption|].
  apply existsb_exists. exists code. split; [assumption|].
  assert (S : exists s, code = JString s).
  { clear - Hc1. unfold getBindingEventCodes in Hc1.
    repeat match type of Hc1 with
           | In _ (if ?b then _ else _) => destruct b
           end; simpl in Hc1;
      repeat (destruct Hc1 as [<-|Hc1]; [eexists; reflexivity|]); contradiction. }
  destruct S as [s ->]. now apply strict_equals_string.
Qed.

(** C6, the conflict check as the claim words it.  The conflict check compares
    tokens, not physical codes: "sprint" is bound to "Shift", whose codes
    include ShiftLeft, and yet the candidate "ShiftLeft" conflicts with
    nothing. *)
Lemma conflict_check_compares_tokens :
  js_get DEFAULT_RUNTIME_KEYBINDINGS "sprint" = JString "Shift"
  /\ In (JString "ShiftLeft") (getBindingEventCodes (JString "Shift"))
  /\ findBindingConflict DEFAULT_RUNTIME_KEYBINDINGS "interact" (JString "ShiftLeft") = None.
Proof. split; [reflexivity|]. split; [simpl; tauto | reflexivity]. Qed.

(** C6.  In any letter casing, "shiftleft", "shiftright" and "shift" normalise
    to the one token "Shift"; its physical codes are ShiftLeft and ShiftRight,
    in that order.  The reserved check tests both codes: whatever the set of
    reserved codes, "Shift" is reserved exactly when the set has ShiftLeft or
    ShiftRight.  An event matches the token on either code.  The conflict
    check compares tokens: applied to the token captured from either physical
    key, it reports an action bound to "Shift". *)
Theorem shift_alias_collapsing :
  (forall s : string,
      In (Str.toLowerCase s) ["shiftleft"; "shiftright"; "shift"] ->
      normalizeBindingToken (JString s) = JString "Shift")
  /\ getBindingEventCodes (JString "Shift") = [JString "ShiftLeft"; JString "ShiftRight"]
  /\ (forall token : JsValue, isReservedBinding token = reservedAmong RESERVED_CODES token)
  /\ (forall reserved : JsSet,
         reservedAmong reserved (JString "Shift") = true <->
         Set_has reserved (JString "ShiftLeft") = true
         \/ Set_has reserved (JString "ShiftRight") = true)
  /\ (forall code : JsValue,
         matchesBinding code (JString "Shift") = true <->
         code = JString "ShiftLeft" \/ code = JString "ShiftRight")
  /\ (forall (bindings : RuntimeKeybindings) (actionId other physical : string),
         In physical ["ShiftLeft"; "ShiftRight"] ->
         In other REBINDABLE_ACTION_IDS ->
         other <> actionId ->
         js_get bindings other = JString "Shift" ->
         exists owner,
           findBindingConflict bindings actionId (normalizeCapturedKey physical) = Some owner
           /\ owner <> actionId
           /\ js_get bindings owner = JString "Shift").
Proof.
  split; [|split; [reflexivity|split; [reflexivity|split;
            [|split; [exact matchesBinding_Shift|]]]]].
  - intros s H.
    assert (K : Str.toLowerCase (Str.trim s) = Str.toLowerCase s).
    { rewrite trim_toLowerCase. simpl in H.
      destruct H as [<-|[<-|[<-|[]]]]; reflexivity. }
    simpl in H. destruct H as [H|[H|[H|[]]]];
      (eapply normalize_alias;
       [ rewrite K; symmetry; exact H | reflexivity | reflexivity | discriminate ]).
  - intros reserved. unfold reservedAmong.
    change (getBindingEventCodes (JString "Shift"))
      with [JString "ShiftLeft"; JString "ShiftRight"].
    cbn [existsb]. rewrite orb_false_r, orb_true_iff. reflexivity.
  - intros bindings actionId other physical Hp Hother Hne Hb.
    assert (N : normalizeCapturedKey physical = JString "Shift")
      by (simpl in Hp; destruct Hp as [<-|[<-|[]]]; reflexivity).
    rewrite N.
    destruct (findBindingConflict bindings actionId (JString "Shift")) as [owner|] eqn:F.
    + exists owner. apply conflict_from_Some in F as (_ & _ & _ & [Ho Hs] & _).
      repeat split; [assumption|]. now apply strict_equals_string.
    + exfalso. eapply conflict_from_None; [exact F | exact Hother |].
      split; [assumption|]. rewrite Hb. reflexivity.
Qed.

Lemma shift_alias_collapsing_witness :
  normalizeBindingToken (JString "ShiftLEFT") = JString "Shift"
  /\ (reservedAmong [JString "ShiftRight"] (JString "Shift") = true <->
      Set_has [JString "ShiftRight"] (JString "ShiftLeft") = true
      \/ Set_has [JString "ShiftRight"] (JString "ShiftRight") = true)
  /\ exists owner,
       findBindingConflict DEFAULT_RUNTIME_KEYBINDINGS "interact"
         (normalizeCapturedKey "ShiftRight") = Some owner
       /\ owner <> "interact"
       /\ js_get DEFAULT_RUNTIME_KEYBINDINGS owner = JString "Shift".
Proof.
  split; [|split].
  - apply (proj1 shift_alias_collapsing "ShiftLEFT"). simpl. tauto.
  - apply (proj1 (proj2 (proj2 (proj2 shift_alias_collapsing))) [JString "ShiftRight"]).
  - apply (proj2 (proj2 (proj2 (proj2 (proj2 shift_alias_collapsing))))
             DEFAULT_RUNTIME_KEYBINDINGS "interact" "sprint" "ShiftRight").
    + simpl. tauto.
    + simpl. tauto.
    + discriminate.
    + reflexivity.
Defined.

(* ================================================================== *)
(** ** Sanitiser: the invariant of the repair loop *)

Lemma Intrinsic_eqb_eq (a b : Intrinsic) : Intrinsic_eqb a b = true <-> a = b.
Proof.
  destruct a, b; simpl; split; intros H; try discriminate; try reflexivity.
  - apply String.eqb_eq in H. now subst.
  - injection H as ->. apply String.eqb_refl.
Qed.

Lemma sameValueZero_slot (v x : JsValue) :
  slotValue v -> (sameValueZero v x = true <-> v = x).
Proof.
  destruct v; simpl; try contradiction; intros _.
  - destruct x; simpl; split; intros H; try discriminate.
    + apply String.eqb_eq in H. now subst.
    + injection H as ->. apply String.eqb_refl.
  - destruct x; simpl; split; intros H; try discriminate.
    + apply Intrinsic_eqb_eq in H. now subst.
    + injection H as ->. now apply Intrinsic_eqb_eq.
Qed.

Lemma Set_has_In (s : JsSet) (v : JsValue) :
  slotValue v -> (Set_has s v = true <-> In v s).
Proof.
  intros Hv. unfold Set_has. rewrite existsb_exists. split.
  - intros (x & Hin & E). apply (sameValueZero_slot _ _ Hv) in E. now subst.
  - intros Hin. exists v. split; [assumption | now apply sameValueZero_slot].
Qed.

Lemma Set_delete_In (s : JsSet) (v x : JsValue) :
  slotValue v -> (In x (Set_delete s v) <-> In x s /\ x <> v).
Proof.
  intros Hv. unfold Set_delete. rewrite filter_In, negb_true_iff.
  split; intros [Hin H]; split; try assumption.
  - intros ->. rewrite (proj2 (sameValueZero_slot _ _ Hv) eq_refl) in H. discriminate.
  - destruct (sameValueZero v x) eqn:E; [|reflexivity].
    apply (sameValueZero_slot _ _ Hv) in E. now subst.
Qed.

Lemma Set_add_In (s : JsSet) (v x : JsValue) :
  slotValue v -> (In x (Set_add s v) <-> In x s \/ x = v).
Proof.
  intros Hv. unfold Set_add. destruct (Set_has s v) eqn:E.
  - apply (Set_has_In _ _ Hv) in E. split; [tauto | intros [H| ->]; assumption].
  - rewrite in_app_iff. simpl. intuition.
Qed.

(** The three results of the normaliser. *)
Lemma normalize_range (token : JsValue) :
  normalizeBindingToken token = JNull
  \/ (exists t, normalizeBindingToken token = JString t /\ In t canonicalTokens)
  \/ (exists i, normalizeBindingToken token = JIntrinsic i).
Proof.
  destruct (normalizeBindingToken token) eqn:E; try (left; reflexivity);
    try (right; left; eexists; split;
         [reflexivity | eapply normalize_string_canonical, E]);
    try (right; right; eexists; reflexivity); exfalso;
    (unfold normalizeBindingToken in E; destruct token; try discriminate;
     destruct (negb (truthy (JString s))); [discriminate|];
     destruct (negb (truthy (JString (Str.trim s)))); [discriminate|];
     destruct (truthy (js_get CANONICAL_ALIASES (Str.toLowerCase (Str.trim s)))) eqn:T;
     [| destruct (matchesWhitelist (Str.trim s)); discriminate ];
     unfold js_get in E, T;
     destruct (own CANONICAL_ALIASES (Str.toLowerCase (Str.trim s))) as [v|] eqn:O;
     [ apply own_In in O; simpl in O; subst v;
       repeat (destruct O as [O|O]; [discriminate O|]); contradiction
     | unfold inherited in E, T;
       repeat match type of E with (if ?b then _ else _) = _ => destruct b end;
       first [discriminate E | discriminate T] ]).
Qed.

Lemma own_skip {A : Type} (done rest : list (string * A)) (key : string) :
  ~ In key (map fst done) -> own (done ++ rest) key = own rest key.
Proof.
  induction done as [|[k v] done IH]; simpl; [reflexivity|].
  intros H. destruct (String.eqb_spec k key); [tauto|]. apply IH. tauto.
Qed.

Lemma js_get_focus (done todo : RuntimeKeybindings) (a : string) (d : JsValue) :
  ~ In a (map fst done) -> js_get (done ++ (a, d) :: todo) a = d.
Proof.
  intros H. unfold js_get. rewrite own_skip by assumption.
  simpl. now rewrite String.eqb_refl.
Qed.

Lemma js_set_focus (done todo : RuntimeKeybindings) (a : string) (d v : JsValue) :
  ~ In a (map fst done) ->
  js_set (done ++ (a, d) :: todo) a v = done ++ (a, v) :: todo.
Proof.
  induction done as [|[k x] done IH]; simpl.
  - now rewrite String.eqb_refl.
  - intros H. destruct (String.eqb_spec k a); [tauto|]. f_equal. apply IH. tauto.
Qed.

Lemma sanitizeStep_focus (record : JsValue) (done todo : RuntimeKeybindings)
    (a : string) (d : JsValue) (seen : JsSet) :
  ~ In a (map fst done) ->
  sanitizeStep record (done ++ (a, d) :: todo, seen) a =
  if commits record a d seen
  then (done ++ (a, normalizeBindingToken (record_get record a)) :: todo,
        Set_add (Set_delete seen d) (normalizeBindingToken (record_get record a)))
  else (done ++ (a, d) :: todo, seen).
Proof.
  intros H. unfold sanitizeStep, commits.
  rewrite js_get_focus, js_set_focus by assumption.
  destruct (JsType_eqb (typeof (record_get record a)) TyString); simpl; [|reflexivity].
  destruct (truthy (normalizeBindingToken (record_get record a))); simpl; [|reflexivity].
  destruct (isReservedBinding (normalizeBindingToken (record_get record a)));
    simpl; [reflexivity|].
  destruct (Set_has (Set_delete seen d) (normalizeBindingToken (record_get record a)));
    reflexivity.
Qed.

Lemma commits_settled (record : JsValue) (a : string) (d : JsValue) (seen : JsSet) :
  commits record a d seen = true ->
  settled (normalizeBindingToken (record_get record a)).
Proof.
  unfold commits. rewrite !andb_true_iff, !negb_true_iff.
  intros [[[_ T] R] _]. unfold settled.
  destruct (normalize_range (record_get record a)) as [E|[(t & E & Ht)|(i & E)]];
    rewrite E in *.
  - discriminate T.
  - split; [exact I | split; [assumption|]]. intros t' [= <-]. assumption.
  - split; [exact I | split; [assumption|]]. intros t' [=].
Qed.

(** Replacing the value in focus by one that no other slot holds keeps the
    invariant, with the in-use set updated as the loop does. *)
Lemma consistent_replace (done todo : RuntimeKeybindings) (a : string)
    (d v : JsValue) (seen : JsSet) :
  consistent (done ++ (a, d) :: todo) seen ->
  settled v ->
  Set_has (Set_delete seen d) v = false ->
  consistent (done ++ (a, v) :: todo) (Set_add (Set_delete seen d) v).
Proof.
  unfold consistent. rewrite !map_app. simpl. rewrite !Forall_app.
  intros (Hk & Hv & Hseen & Hdone & Hall) Hsv Hfree.
  apply Forall_cons_iff in Hall as [Hd Htodo].
  assert (Sd : slotValue d) by apply Hd.
  assert (Sv : slotValue v) by apply Hsv.
  destruct (NoDup_remove _ _ _ Hv) as [Hrest Hnotin].
  assert (Hv' : ~ In v (map snd done ++ map snd todo)).
  { intros Hin. assert (F : Set_has (Set_delete seen d) v = true).
    { apply (Set_has_In _ _ Sv), (Set_delete_In _ _ _ Sd). split.
      - apply Hseen. rewrite in_app_iff in *. simpl. tauto.
      - intros ->. contradiction. }
    rewrite F in Hfree. discriminate. }
  split; [assumption|].
  split; [apply (NoDup_Add (Add_app v _ _)); now split|].
  split; [|split; [assumption | apply Forall_cons; assumption]].
  intros x.
  rewrite (Set_add_In _ _ x Sv), (Set_delete_In _ _ x Sd), Hseen, !in_app_iff.
  rewrite in_app_iff in Hnotin, Hv'. simpl. split.
  - intros [[[H|[H|H]] Hne]| ->]; try tauto. congruence.
  - intros [H|[H|H]];
      [ left; split; [tauto | intros ->; tauto]
      | right; congruence
      | left; split; [tauto | intros ->; tauto] ].
Qed.

Lemma Repaired_keys (todo result : RuntimeKeybindings) :
  Repaired todo result -> map fst result = map fst todo.
Proof. induction 1; simpl; congruence. Qed.

Lemma consistent_focus_key (done todo : RuntimeKeybindings) (a : string) (d : JsValue)
    (seen : JsSet) :
  consistent (done ++ (a, d) :: todo) seen -> ~ In a (map fst done).
Proof.
  intros (Hk & _). rewrite map_app in Hk. simpl in Hk.
  apply NoDup_remove_2 in Hk. rewrite in_app_iff in Hk. tauto.
Qed.

Lemma consistent_focus_value (done todo : RuntimeKeybindings) (a : string) (v : JsValue)
    (seen : JsSet) :
  consistent (done ++ (a, v) :: todo) seen ->
  ~ In v (map snd done) /\ ~ In v (map snd todo).
Proof.
  intros (_ & Hv & _). rewrite map_app in Hv. simpl in Hv.
  apply NoDup_remove_2 in Hv. rewrite in_app_iff in Hv. tauto.
Qed.

(** The second loop of [sanitizeBindings], started on the entries [todo] with
    [done] behind it, keeps the invariant and repairs [todo]. *)
Lemma loop_repairs (record : JsValue) (todo : RuntimeKeybindings) :
  forall (done : RuntimeKeybindings) (seen : JsSet),
    consistent (done ++ todo) seen ->
    exists result seen',
      fold_left (sanitizeStep record) (map fst todo) (done ++ todo, seen)
      = (done ++ result, seen')
      /\ consistent (done ++ result) seen'
      /\ Repaired todo result.
Proof.
  induction todo as [|[a d] todo IH]; intros done seen Hc.
  - exists [], seen. repeat split; try apply Hc. constructor.
  - change (map fst ((a, d) :: todo)) with (a :: map fst todo).
    cbn [fold_left].
    rewrite (sanitizeStep_focus record done todo a d seen (consistent_focus_key _ _ _ _ _ Hc)).
    destruct (commits record a d seen) eqn:C.
    + set (n := normalizeBindingToken (record_get record a)) in *.
      assert (Hn : consistent (done ++ (a, n) :: todo) (Set_add (Set_delete seen d) n)).
      { apply consistent_replace; [assumption | eapply commits_settled, C |].
        unfold commits in C. rewrite !andb_true_iff, !negb_true_iff in C. apply C. }
      assert (Hfree := proj2 (consistent_focus_value _ _ _ _ _ Hn)).
      replace (done ++ (a, n) :: todo) with ((done ++ [(a, n)]) ++ todo) in *
        by (rewrite <- app_assoc; reflexivity).
      destruct (IH _ _ Hn) as (result & seen' & E & Hc' & Hr).
      exists ((a, n) :: result), seen'.
      replace (done ++ (a, n) :: result) with ((done ++ [(a, n)]) ++ result)
        by (rewrite <- app_assoc; reflexivity).
      repeat split; try assumption; try apply Hc'. now constructor.
    + assert (Hfree := proj2 (consistent_focus_value _ _ _ _ _ Hc)).
      replace (done ++ (a, d) :: todo) with ((done ++ [(a, d)]) ++ todo) in *
        by (rewrite <- app_assoc; reflexivity).
      destruct (IH _ _ Hc) as (result & seen' & E & Hc' & Hr).
      exists ((a, d) :: result), seen'.
      replace (done ++ (a, d) :: result) with ((done ++ [(a, d)]) ++ result)
        by (rewrite <- app_assoc; reflexivity).
      repeat split; try assumption; try apply Hc'. now constructor.
Qed.

Lemma seedSeen_default :
  seedSeen DEFAULT_RUNTIME_KEYBINDINGS = map snd DEFAULT_RUNTIME_KEYBINDINGS.
Proof. reflexivity. Qed.

Lemma In_canonical_dec (t : string) :
  Str.oneOf canonicalTokens t = true <-> In t canonicalTokens.
Proof. apply oneOf_In. Qed.

Lemma default_consistent :
  consistent DEFAULT_RUNTIME_KEYBINDINGS (seedSeen DEFAULT_RUNTIME_KEYBINDINGS).
Proof.
  rewrite seedSeen_default. unfold consistent. split; [|split; [|split]].
  - simpl. repeat (apply NoDup_cons;
      [simpl; intros H; repeat (destruct H as [H|H]; [discriminate H|]); contradiction|]).
    apply NoDup_nil.
  - simpl. repeat (apply NoDup_cons;
      [simpl; intros H; repeat (destruct H as [H|H]; [discriminate H|]); contradiction|]).
    apply NoDup_nil.
  - tauto.
  - simpl. repeat (apply Forall_cons;
      [split; [exact I | split; [reflexivity|]];
       intros t [= <-]; apply In_canonical_dec; reflexivity|]).
    apply Forall_nil.
Qed.

Lemma sanitizeBindings_unfold (value : JsValue) :
  sanitizeBindings value =
  if isRecord value
  then fst (fold_left (sanitizeStep value) REBINDABLE_ACTION_IDS
              (DEFAULT_RUNTIME_KEYBINDINGS, seedSeen DEFAULT_RUNTIME_KEYBINDINGS))
  else DEFAULT_RUNTIME_KEYBINDINGS.
Proof.
  unfold sanitizeBindings, isRecord.
  destruct (truthy value); cbn [negb orb andb]; [|reflexivity].
  destruct (JsType_eqb (typeof value) TyObject); reflexivity.
Qed.

(** What holds of the sanitised mapping for every input. *)
Lemma sanitize_repaired (value : JsValue) :
  exists seen,
    consistent (sanitizeBindings value) seen
    /\ Repaired DEFAULT_RUNTIME_KEYBINDINGS (sanitizeBindings value).
Proof.
  rewrite sanitizeBindings_unfold. destruct (isRecord value).
  - destruct (loop_repairs value DEFAULT_RUNTIME_KEYBINDINGS [] _ default_consistent)
      as (result & seen' & E & Hc & Hr).
    exists seen'.
    match goal with
    | |- context [fst ?x] =>
        replace (fst x) with result by (symmetry; exact (f_equal fst E))
    end.
    now split.
  - exists (seedSeen DEFAULT_RUNTIME_KEYBINDINGS). split; [apply default_consistent|].
    unfold DEFAULT_RUNTIME_KEYBINDINGS.
    repeat (constructor; [simpl; intros H;
      repeat (destruct H as [H|H]; [discriminate H|]); contradiction|]).
    constructor.
Qed.

(** Completeness of the key set: the sanitised mapping has exactly the
    registered action ids as own keys, in registry order. *)
Lemma sanitize_keys (value : JsValue) :
  Object_keys (sanitizeBindings value) = REBINDABLE_ACTION_IDS.
Proof.
  destruct (sanitize_repaired value) as (_ & _ & Hr).
  apply Repaired_keys in Hr. exact Hr.
Qed.

Lemma js_get_In (props : RuntimeKeybindings) (key : string) :
  In key (map fst props) -> In (key, js_get props key) props.
Proof.
  unfold js_get. induction props as [|[k v] rest IH]; simpl; [contradiction|].
  destruct (String.eqb_spec k key) as [->|N].
  - intros _. now left.
  - intros [E|H]; [contradiction|]. right. now apply IH.
Qed.

Lemma NoDup_snd_injective {A B : Type} (l : list (A * B)) (a b : A) (v : B) :
  NoDup (map snd l) -> In (a, v) l -> In (b, v) l -> a = b.
Proof.
  induction l as [|[k x] rest IH]; simpl; [contradiction|].
  intros Hnd H1 H2. apply NoDup_cons_iff in Hnd as [Hnot Hnd].
  assert (Hrest : forall c, In (c, v) rest -> In v (map snd rest))
    by (intros c Hc; apply in_map_iff; now exists (c, v)).
  destruct H1 as [E1|H1], H2 as [E2|H2].
  - congruence.
  - injection E1 as -> ->. exfalso. eauto.
  - injection E2 as -> ->. exfalso. eauto.
  - now apply IH.
Qed.

(** Injectivity, for every input: two distinct actions never hold the same
    value. *)
Lemma sanitize_injective (value : JsValue) (a b : string) :
  In a REBINDABLE_ACTION_IDS -> In b REBINDABLE_ACTION_IDS -> a <> b ->
  js_get (sanitizeBindings value) a <> js_get (sanitizeBindings value) b.
Proof.
  intros Ha Hb Hne E.
  destruct (sanitize_repaired value) as (seen & (_ & Hv & _) & _).
  rewrite <- (sanitize_keys value) in Ha, Hb.
  apply js_get_In in Ha, Hb. rewrite E in Ha.
  apply Hne. eapply NoDup_snd_injective; eassumption.
Qed.

(** Every slot holds a settled value, for every input: a string of the
    canonical vocabulary or an intrinsic object, and in neither case a
    reserved one. *)
Lemma sanitize_settled (value : JsValue) (a : string) :
  In a REBINDABLE_ACTION_IDS -> settled (js_get (sanitizeBindings value) a).
Proof.
  intros Ha.
  destruct (sanitize_repaired value) as (seen & (_ & _ & _ & Hs) & _).
  rewrite <- (sanitize_keys value) in Ha. apply js_get_In in Ha.
  rewrite Forall_forall in Hs. apply Hs. apply in_map_iff.
  now exists (a, js_get (sanitizeBindings value) a).
Qed.

Lemma In_js_get (props : RuntimeKeybindings) (key : string) (v : JsValue) :
  NoDup (map fst props) -> In (key, v) props -> js_get props key = v.
Proof.
  unfold js_get. induction props as [|[k x] rest IH]; simpl; [contradiction|].
  intros Hnd Hin. apply NoDup_cons_iff in Hnd as [Hnot Hnd].
  destruct Hin as [[= -> ->]|Hin].
  - now rewrite String.eqb_refl.
  - destruct (String.eqb_spec k key) as [->|N].
    + exfalso. apply Hnot. apply in_map_iff. now exists (key, v).
    + now apply IH.
Qed.

Lemma canonical_truthy (t : string) :
  In t canonicalTokens -> truthy (JString t) = true.
Proof.
  intros H.
  assert (A : forallb (fun x => truthy (JString x)) canonicalTokens = true)
    by (vm_compute; reflexivity).
  rewrite forallb_forall in A. now apply A.
Qed.

(** Run on a repaired mapping whose slots all hold strings, the loop commits
    each slot's own token and rebuilds the mapping. *)
Lemma loop_replays (full : RuntimeKeybindings) (todo result : RuntimeKeybindings) :
  Repaired todo result ->
  forall (done : RuntimeKeybindings) (seen : JsSet),
    full = done ++ result ->
    NoDup (map snd full) ->
    Forall settledToken (map snd result) ->
    consistent (done ++ todo) seen ->
    exists seen',
      fold_left (sanitizeStep (JObject full)) (map fst todo) (done ++ todo, seen)
      = (done ++ result, seen').
Proof.
  induction 1 as [|a d v todo result Hfree Hr IH]; intros done seen Hfull Hnd Htok Hc.
  - exists seen. reflexivity.
  - change (map fst ((a, d) :: todo)) with (a :: map fst todo). cbn [fold_left].
    assert (Hkey := consistent_focus_key _ _ _ _ _ Hc).
    rewrite (sanitizeStep_focus (JObject full) done todo a d seen Hkey).
    simpl in Htok. apply Forall_cons_iff in Htok as [[Hv (t & ->)] Htok].
    assert (Hget : record_get (JObject full) a = JString t)
      by (simpl; rewrite Hfull; now apply js_get_focus).
    assert (Hcan : In t canonicalTokens) by (now apply Hv).
    assert (Hnorm : normalizeBindingToken (record_get (JObject full) a) = JString t)
      by (rewrite Hget; now apply canonical_fixed).
    assert (Sd : slotValue d).
    { destruct Hc as (_ & _ & _ & Hall). rewrite map_app, Forall_app in Hall.
      destruct Hall as [_ Hall]. apply Forall_cons_iff in Hall. apply Hall. }
    assert (Hunused : Set_has (Set_delete seen d) (JString t) = false).
    { destruct (Set_has (Set_delete seen d) (JString t)) eqn:E; [|reflexivity].
      exfalso. apply (Set_has_In _ (JString t) I) in E.
      apply (Set_delete_In _ _ _ Sd) in E.
      destruct E as [E Hne]. apply Hc in E. rewrite map_app, in_app_iff in E. simpl in E.
      rewrite Hfull, map_app in Hnd. simpl in Hnd. apply NoDup_remove_2 in Hnd.
      rewrite in_app_iff in Hnd. destruct E as [E|[E|E]]; [tauto | congruence | tauto]. }
    assert (C : commits (JObject full) a d seen = true).
    { unfold commits. rewrite Hnorm, Hget, Hunused, (canonical_truthy _ Hcan).
      destruct Hv as (_ & -> & _). reflexivity. }
    rewrite C, Hnorm.
    assert (Hn := consistent_replace _ _ _ _ _ _ Hc Hv Hunused).
    replace (done ++ (a, JString t) :: todo) with ((done ++ [(a, JString t)]) ++ todo) in *
      by (rewrite <- app_assoc; reflexivity).
    destruct (IH (done ++ [(a, JString t)]) (Set_add (Set_delete seen d) (JString t)))
      as (seen' & E); try assumption.
    + rewrite <- app_assoc. exact Hfull.
    + exists seen'. rewrite E, <- app_assoc. reflexivity.
Qed.

(** Idempotence where it holds: when every slot of the sanitised mapping
    holds a string, sanitising the mapping again returns it. *)
Lemma sanitize_idempotent_on_tokens (value : JsValue) :
  (forall a, In a REBINDABLE_ACTION_IDS ->
             exists t, js_get (sanitizeBindings value) a = JString t) ->
  sanitizeBindings (JObject (sanitizeBindings value)) = sanitizeBindings value.
Proof.
  intros Htok.
  destruct (sanitize_repaired value) as (seen & Hc & Hr).
  assert (Hkeys := sanitize_keys value).
  remember (sanitizeBindings value) as s eqn:Es. clear Es.
  rewrite sanitizeBindings_unfold. cbn [isRecord truthy typeof JsType_eqb andb].
  assert (Hall : Forall settledToken (map snd s)).
  { destruct Hc as (Hk & _ & _ & Hs). rewrite Forall_forall in *.
    intros v Hv. split; [now apply Hs|].
    apply in_map_iff in Hv as ([a x] & <- & Hin). simpl.
    destruct (Htok a) as (t & Ht).
    - rewrite <- Hkeys. apply in_map_iff. now exists (a, x).
    - exists t. rewrite <- Ht. symmetry. now apply In_js_get. }
  destruct (loop_replays s DEFAULT_RUNTIME_KEYBINDINGS s Hr [] _ eq_refl
              (proj1 (proj2 Hc)) Hall default_consistent) as (seen' & E).
  match goal with
  | |- fst ?x = _ => change (fst x = fst (@nil (string * JsValue) ++ s, seen'))
  end.
  f_equal. exact E.
Qed.

(* ================================================================== *)
(** ** Sanitiser: scenarios *)

(** C1.  For every input the sanitised mapping has the fifteen action ids as
    keys, distinct values and no reserved value (lemmas [sanitize_keys],
    [sanitize_injective], [sanitize_settled]); but a slot need not hold a
    BindingToken.  The alias table is an object literal, so the look-up
    [CANONICAL_ALIASES[raw.toLowerCase()]] also finds what the table inherits:
    for the candidate {moveUp: "constructor"} the normaliser returns the
    function Object, which is truthy, not reserved and not in use, and the
    loop commits it.  The slot of moveUp then holds a function, not a string. *)
Theorem sanitize_commits_inherited_intrinsic :
  normalizeBindingToken (JString "constructor") = JIntrinsic ObjectConstructor
  /\ js_get (sanitizeBindings (JObject [("moveUp", JString "constructor")])) "moveUp"
     = JIntrinsic ObjectConstructor
  /\ typeof (js_get (sanitizeBindings (JObject [("moveUp", JString "constructor")])) "moveUp")
     = TyFunction
  /\ js_get (sanitizeBindings (JObject [("chat", JString " __PROTO__ ")])) "chat"
     = JIntrinsic ObjectPrototype.
Proof. repeat split. Qed.

(** C2.  Sanitising twice differs from sanitising once on the candidate
    {moveUp: "constructor"}: the first pass binds moveUp to the function
    Object; the second pass skips that slot, which is not a string, and binds
    moveUp to its default. *)
Theorem sanitize_twice_differs :
  sanitizeBindings (JObject [("moveUp", JString "constructor")])
  = js_set DEFAULT_RUNTIME_KEYBINDINGS "moveUp" (JIntrinsic ObjectConstructor)
  /\ sanitizeBindings (JObject (sanitizeBindings (JObject [("moveUp", JString "constructor")])))
     = DEFAULT_RUNTIME_KEYBINDINGS
  /\ sanitizeBindings (JObject (sanitizeBindings (JObject [("moveUp", JString "constructor")])))
     <> sanitizeBindings (JObject [("moveUp", JString "constructor")]).
Proof.
  split; [reflexivity | split; [reflexivity|]].
  intros H. vm_compute in H. discriminate H.
Qed.

(** For C4, as stated: the claimed outcome binds moveUp to "KeyD".  The
    sanitiser leaves moveUp at "KeyW". *)
Lemma repair_scenario_moveUp_keeps_default :
  js_get (sanitizeBindings (JObject [("moveUp", JString "KeyD"); ("moveRight", JString "KeyD")]))
         "moveUp" = JString "KeyW"
  /\ JString "KeyW" <> JString "KeyD".
Proof. split; [reflexivity | discriminate]. Qed.

(** C4, amended.  The in-use set is seeded with every default token, so on
    the candidate {moveUp: "KeyD", moveRight: "KeyD"} the request of moveUp
    is discarded (KeyD is in use, as the default of moveRight) and the result
    is the default mapping: moveUp at "KeyW", moveRight at "KeyD", every other
    action at its default.  Registry order decides between two requests for a
    token that no default holds: {moveUp: "KeyZ", moveRight: "KeyZ"} binds
    moveUp to "KeyZ" and leaves moveRight at its default. *)
Theorem repair_scenario_returns_defaults :
  sanitizeBindings (JObject [("moveUp", JString "KeyD"); ("moveRight", JString "KeyD")])
  = DEFAULT_RUNTIME_KEYBINDINGS
  /\ js_get DEFAULT_RUNTIME_KEYBINDINGS "moveUp" = JString "KeyW"
  /\ js_get DEFAULT_RUNTIME_KEYBINDINGS "moveRight" = JString "KeyD"
  /\ sanitizeBindings (JObject [("moveUp", JString "KeyZ"); ("moveRight", JString "KeyZ")])
     = js_set DEFAULT_RUNTIME_KEYBINDINGS "moveUp" (JString "KeyZ").
Proof. repeat split. Qed.

(* ================================================================== *)
(** ** Persistence *)

Lemma canonical_label_completes (t : string) :
  In t canonicalTokens -> completes (toConfigLabel (JString t)) = true.
Proof.
  intros H.
  assert (A : forallb (fun x => completes (toConfigLabel (JString x))) canonicalTokens = true)
    by (vm_compute; reflexivity).
  rewrite forallb_forall in A. now apply A.
Qed.

(** The labels of the values a slot can hold stay within the strings of
    this development. *)
Lemma settled_label_within (v : JsValue) : settled v -> toConfigLabel v <> Beyond.
Proof.
  intros (S & _ & C). destruct v; try contradiction.
  - intros E. pose proof (canonical_label_completes s (C s eq_refl)) as K.
    rewrite E in K. discriminate K.
  - discriminate.
Qed.

Lemma sanitized_within (value : JsValue) : within (sanitizeBindings value).
Proof.
  intros a Ha. apply settled_label_within, sanitize_settled.
  simpl in Ha. simpl.
  repeat (destruct Ha as [<-|Ha]; [tauto|]). contradiction.
Qed.

Lemma default_within : within DEFAULT_RUNTIME_KEYBINDINGS.
Proof.
  intros a Ha. simpl in Ha.
  repeat (destruct Ha as [<-|Ha]; [discriminate|]). contradiction.
Qed.

Ltac within_step H :=
  match goal with
  | |- context [toConfigLabel ?x] =>
      let E := fresh "E" in
      destruct (toConfigLabel x) as [?|?e|] eqn:E;
      [ | discriminate | exfalso; revert E; apply H; simpl; tauto ]
  end.

Lemma sync_within (bindings : RuntimeKeybindings) (w w' : Window) :
  within bindings -> syncSharedKeybindingDisplayConfig bindings w <> (Beyond, w').
Proof.
  intros H. destruct w as [st cfg ev].
  unfold syncSharedKeybindingDisplayConfig. cbn [config_keybindings].
  destruct cfg as [table|]; [|discriminate].
  cbv [bind assignLabel config_keybindings localStorage dispatched option_map].
  within_step H. within_step H. within_step H. within_step H. within_step H.
  within_step H. within_step H. within_step H. within_step H.
  discriminate.
Qed.

Lemma sync_completes (bindings : RuntimeKeybindings) (w : Window) :
  labelled bindings = true ->
  exists table,
    syncSharedKeybindingDisplayConfig bindings w
    = (Normal tt, mkWindow (localStorage w) table (dispatched w)).
Proof.
  intros H. destruct w as [st cfg ev].
  unfold syncSharedKeybindingDisplayConfig. cbn [config_keybindings].
  destruct cfg as [table|]; [|exists None; reflexivity].
  unfold labelled, syncedActions in H. cbn [forallb] in H.
  rewrite !andb_true_iff in H.
  destruct H as (H1 & H2 & H3 & H4 & H5 & H6 & H7 & H8 & H9 & _).
  destruct (toConfigLabel (js_get bindings "interact")) as [l1| |] eqn:E1; try discriminate H1.
  destruct (toConfigLabel (js_get bindings "dropItem")) as [l2| |] eqn:E2; try discriminate H2.
  destruct (toConfigLabel (js_get bindings "quickHeal")) as [l3| |] eqn:E3; try discriminate H3.
  destruct (toConfigLabel (js_get bindings "sprint")) as [l4| |] eqn:E4; try discriminate H4.
  destruct (toConfigLabel (js_get bindings "chat")) as [l5| |] eqn:E5; try discriminate H5.
  destruct (toConfigLabel (js_get bindings "playerList")) as [l6| |] eqn:E6; try discriminate H6.
  destruct (toConfigLabel (js_get bindings "weaponsHud")) as [l7| |] eqn:E7; try discriminate H7.
  destruct (toConfigLabel (js_get bindings "quickSwitchWeapon")) as [l8| |] eqn:E8; try discriminate H8.
  destruct (toConfigLabel (js_get bindings "controlsPanel")) as [l9| |] eqn:E9; try discriminate H9.
  cbv [bind assignLabel config_keybindings localStorage dispatched option_map].
  rewrite E1, E2, E3, E4, E5, E6, E7, E8, E9.
  eexists. reflexivity.
Qed.

Lemma default_labelled : labelled DEFAULT_RUNTIME_KEYBINDINGS = true.
Proof. reflexivity. Qed.

Lemma truthy_text (text : string) : text <> "" -> truthy (JString text) = true.
Proof. intros H. simpl. destruct (String.eqb_spec text ""); [contradiction | reflexivity]. Qed.

Section PersistenceFacts.

Variable JSON_parse : string -> option JsValue.
Variable JSON_stringify : JsValue -> string.

(** [loadRuntimeKeybindings] never throws. *)
Lemma load_never_throws (world : World) :
  exists bindings world',
    loadRuntimeKeybindings JSON_parse world = (Normal bindings, world').
Proof.
  destruct world as [w|]; [|eexists; eexists; reflexivity].
  unfold loadRuntimeKeybindings, tryCatch.
  match goal with
  | |- context [let '(_, _) := match ?body with _ => _ end in _] =>
      destruct body as [[b|e|] w1] eqn:B
  end.
  - eexists; eexists; reflexivity.
  - unfold bind. destruct (sync_completes _ w1 default_labelled) as (table & ->).
    eexists; eexists; reflexivity.
  - exfalso. revert B. unfold bind, localStorage_getItem.
    destruct (blocked (localStorage w)); [discriminate|].
    match goal with |- context [negb ?b] => destruct (negb b) end.
    + destruct (syncSharedKeybindingDisplayConfig DEFAULT_RUNTIME_KEYBINDINGS w)
        as [[[]|e|] w2] eqn:S; try discriminate.
      now apply sync_within in S; [|apply default_within].
    + unfold parseJSON.
      destruct (entry (localStorage w)) as [text|]; [|discriminate].
      destruct (JSON_parse text) as [parsed|]; [|discriminate]. unfold ret.
      destruct (syncSharedKeybindingDisplayConfig (sanitizeBindings parsed) w)
        as [[[]|e|] w2] eqn:S; try discriminate.
      now apply sync_within in S; [|apply sanitized_within].
Qed.

(** Without a window, with storage blocked, with no entry or an empty one,
    and with an entry that JSON.parse rejects, the result is the default
    mapping. *)
Lemma load_defaults (world : World) :
  match world with
  | None => True
  | Some w =>
      blocked (localStorage w) = true
      \/ match entry (localStorage w) with
         | None => True
         | Some text => text = "" \/ JSON_parse text = None
         end
  end ->
  fst (loadRuntimeKeybindings JSON_parse world) = Normal DEFAULT_RUNTIME_KEYBINDINGS.
Proof.
  destruct world as [w|]; [|reflexivity].
  intros H. unfold loadRuntimeKeybindings, tryCatch, bind, localStorage_getItem.
  destruct (blocked (localStorage w)).
  - destruct (sync_completes _ w default_labelled) as (table & ->). reflexivity.
  - destruct H as [H|H]; [discriminate H|].
    destruct (entry (localStorage w)) as [text|].
    + destruct H as [-> | H].
      * cbn [truthy String.eqb negb].
        destruct (sync_completes _ w default_labelled) as (table & ->). reflexivity.
      * destruct (truthy (JString text)); cbn [negb].
        -- unfold parseJSON. rewrite H. unfold throw.
           destruct (sync_completes _ w default_labelled) as (table & ->). reflexivity.
        -- destruct (sync_completes _ w default_labelled) as (table & ->). reflexivity.
    + cbn [truthy negb].
      destruct (sync_completes _ w default_labelled) as (table & ->). reflexivity.
Qed.

(** With an entry that JSON.parse accepts, the result is the sanitised
    parse, provided the labels of the sanitised mapping can be computed. *)
Lemma load_parsed (w : Window) (text : string) (parsed : JsValue) :
  blocked (localStorage w) = false ->
  entry (localStorage w) = Some text ->
  text <> "" ->
  JSON_parse text = Some parsed ->
  labelled (sanitizeBindings parsed) = true ->
  exists table,
    loadRuntimeKeybindings JSON_parse (Some w)
    = (Normal (sanitizeBindings parsed),
       Some (mkWindow (localStorage w) table (dispatched w))).
Proof.
  intros Hb He Ht Hp Hl.
  unfold loadRuntimeKeybindings, tryCatch, bind, localStorage_getItem.
  rewrite Hb, He, (truthy_text _ Ht). cbn [negb].
  unfold parseJSON. rewrite Hp. unfold ret.
  destruct (sync_completes _ w Hl) as (table & ->).
  exists table. reflexivity.
Qed.

(** [saveRuntimeKeybindings] on a storage that accepts the write. *)
Lemma save_stores (w : Window) (bindings : JsValue) :
  blocked (localStorage w) = false ->
  full (localStorage w) = false ->
  labelled (sanitizeBindings bindings) = true ->
  exists table,
    saveRuntimeKeybindings JSON_stringify bindings (Some w)
    = (Normal (sanitizeBindings bindings),
       Some (mkWindow
               (mkStorage false false
                  (Some (JSON_stringify (JObject (sanitizeBindings bindings)))))
               table
               (dispatched w ++ [RUNTIME_KEYBINDINGS_UPDATED_EVENT]))).
Proof.
  intros Hb Hf Hl.
  unfold saveRuntimeKeybindings, tryCatch, bind, localStorage_setItem.
  rewrite Hb, Hf.
  match goal with
  | |- context [syncSharedKeybindingDisplayConfig ?b ?w1] =>
      destruct (sync_completes b w1 Hl) as (table & ->)
  end.
  exists table. reflexivity.
Qed.

End PersistenceFacts.

Lemma tokens_labelled (bindings : RuntimeKeybindings) :
  (forall a, In a REBINDABLE_ACTION_IDS -> settledToken (js_get bindings a)) ->
  labelled bindings = true.
Proof.
  intros H. unfold labelled. apply forallb_forall. intros a Ha.
  destruct (H a) as [(_ & _ & Hcan) (t & E)].
  - revert Ha. apply incl_Forall_in_iff.
    unfold syncedActions. repeat (apply Forall_cons; [simpl; tauto|]). apply Forall_nil.
  - rewrite E. apply canonical_label_completes, Hcan, E.
Qed.

Lemma jsonImage_tokens (props : list (string * JsValue)) :
  Forall (fun v => exists t, v = JString t) (map snd props) ->
  jsonImage (JObject props) = JObject props.
Proof.
  intros H. simpl. f_equal.
  induction props as [|[k v] rest IH]; [reflexivity|].
  simpl in H. apply Forall_cons_iff in H as [(t & ->) H].
  simpl. f_equal. now apply IH.
Qed.

(** The round trip where it holds: when every slot of the sanitised mapping
    holds a string, the storage accepts the write, and JSON.parse reads back
    what JSON.stringify wrote, [load] after [save value] returns
    [sanitizeBindings value]. *)
Lemma load_after_save_on_tokens (JSON_parse : string -> option JsValue)
    (JSON_stringify : JsValue -> string) (w : Window) (value : JsValue) :
  blocked (localStorage w) = false ->
  full (localStorage w) = false ->
  (forall a, In a REBINDABLE_ACTION_IDS ->
             exists t, js_get (sanitizeBindings value) a = JString t) ->
  JSON_stringify (JObject (sanitizeBindings value)) <> "" ->
  JSON_parse (JSON_stringify (JObject (sanitizeBindings value)))
  = Some (jsonImage (JObject (sanitizeBindings value))) ->
  exists w1 w2,
    saveRuntimeKeybindings JSON_stringify value (Some w)
    = (Normal (sanitizeBindings value), Some w1)
    /\ loadRuntimeKeybindings JSON_parse (Some w1)
       = (Normal (sanitizeBindings value), Some w2).
Proof.
  intros Hb Hf Htok Hne Hp.
  assert (Hall : forall a, In a REBINDABLE_ACTION_IDS ->
                           settledToken (js_get (sanitizeBindings value) a))
    by (intros a Ha; split; [now apply sanitize_settled | now apply Htok]).
  assert (Hl := tokens_labelled _ Hall).
  destruct (save_stores JSON_stringify w value Hb Hf Hl) as (table & Es).
  assert (Himg : jsonImage (JObject (sanitizeBindings value))
                 = JObject (sanitizeBindings value)).
  { apply jsonImage_tokens. apply Forall_forall. intros v Hv.
    apply in_map_iff in Hv as ([a x] & <- & Hin). simpl.
    destruct (sanitize_repaired value) as (seen & (Hk & _) & _).
    destruct (Htok a) as (t & Ht).
    - rewrite <- (sanitize_keys value). apply in_map_iff. now exists (a, x).
    - exists t. rewrite <- Ht. symmetry. now apply In_js_get. }
  rewrite Himg in Hp.
  set (w1 := mkWindow
               (mkStorage false false
                  (Some (JSON_stringify (JObject (sanitizeBindings value)))))
               table (dispatched w ++ [RUNTIME_KEYBINDINGS_UPDATED_EVENT])) in Es.
  assert (Hl' : labelled (sanitizeBindings (JObject (sanitizeBindings value))) = true)
    by (rewrite (sanitize_idempotent_on_tokens value Htok); exact Hl).
  destruct (load_parsed JSON_parse w1 _ _ eq_refl eq_refl Hne Hp Hl') as (table' & El).
  rewrite (sanitize_idempotent_on_tokens value Htok) in El.
  exists w1. eexists. split; [exact Es | exact El].
Qed.

(** The document stored for [constructorMapping] has no member for moveUp. *)
Lemma constructorMapping_image :
  sanitizeBindings constructorMapping
  = ("moveUp", JIntrinsic ObjectConstructor) :: tl DEFAULT_RUNTIME_KEYBINDINGS
  /\ jsonImage (JObject (sanitizeBindings constructorMapping))
     = JObject (tl DEFAULT_RUNTIME_KEYBINDINGS).
Proof. split; reflexivity. Qed.

(** C3.  [load] after [save m] differs from [sanitizeBindings m] for the
    mapping [m] that asks "constructor" for moveUp, on a storage that accepts
    the write and with JSON.parse reading back what JSON.stringify wrote:
    the sanitised mapping binds moveUp to the function Object, the stored
    document leaves that member out, and [load] returns the default mapping,
    with moveUp at "KeyW". *)
Theorem load_after_save_drops_intrinsic_slot
    (JSON_parse : string -> option JsValue) (JSON_stringify : JsValue -> string)
    (w : Window) :
  blocked (localStorage w) = false ->
  full (localStorage w) = false ->
  JSON_parse (JSON_stringify (JObject (sanitizeBindings constructorMapping)))
  = Some (jsonImage (JObject (sanitizeBindings constructorMapping))) ->
  exists w1,
    saveRuntimeKeybindings JSON_stringify constructorMapping (Some w)
    = (Normal (sanitizeBindings constructorMapping), Some w1)
    /\ entry (localStorage w1)
       = Some (JSON_stringify (JObject (sanitizeBindings constructorMapping)))
    /\ fst (loadRuntimeKeybindings JSON_parse (Some w1))
       = Normal DEFAULT_RUNTIME_KEYBINDINGS
    /\ DEFAULT_RUNTIME_KEYBINDINGS <> sanitizeBindings constructorMapping
    /\ js_get (sanitizeBindings constructorMapping) "moveUp" = JIntrinsic ObjectConstructor
    /\ js_get DEFAULT_RUNTIME_KEYBINDINGS "moveUp" = JString "KeyW".
Proof.
  intros Hb Hf Hp.
  destruct (save_stores JSON_stringify w constructorMapping Hb Hf eq_refl) as (table & Es).
  eexists. split; [exact Es|]. split; [reflexivity|].
  split; [|split; [intros H; vm_compute in H; discriminate H | split; reflexivity]].
  destruct (String.eqb_spec
              (JSON_stringify (JObject (sanitizeBindings constructorMapping))) "") as [E|N].
  - apply load_defaults. right. cbn [localStorage entry]. left. exact E.
  - edestruct (load_parsed JSON_parse) as (table' & El);
      [ | | exact N | exact Hp | | rewrite El ]; reflexivity.
Qed.

Lemma load_after_save_drops_intrinsic_slot_witness :
  exists w1,
    saveRuntimeKeybindings FlatJSON.stringify constructorMapping
      (Some (mkWindow (mkStorage false false None) None []))
    = (Normal (sanitizeBindings constructorMapping), Some w1)
    /\ entry (localStorage w1)
       = Some (FlatJSON.stringify (JObject (sanitizeBindings constructorMapping)))
    /\ fst (loadRuntimeKeybindings FlatJSON.parse (Some w1))
       = Normal DEFAULT_RUNTIME_KEYBINDINGS
    /\ DEFAULT_RUNTIME_KEYBINDINGS <> sanitizeBindings constructorMapping
    /\ js_get (sanitizeBindings constructorMapping) "moveUp" = JIntrinsic ObjectConstructor
    /\ js_get DEFAULT_RUNTIME_KEYBINDINGS "moveUp" = JString "KeyW".
Proof.
  apply (load_after_save_drops_intrinsic_slot FlatJSON.parse FlatJSON.stringify
           (mkWindow (mkStorage false false None) None [])).
  - reflexivity.
  - reflexivity.
  - vm_compute. reflexivity.
Defined.

(** C9.  [load] never throws ([load_never_throws]) and returns the default
    mapping when there is no entry or JSON.parse rejects it
    ([load_defaults]); but what it returns for a parsed entry need not be a
    valid mapping.  For an entry that parses to {moveUp: "constructor"} it
    returns the sanitised parse, in which moveUp is bound to the function
    Object. *)
Theorem load_returns_intrinsic_slot
    (JSON_parse : string -> option JsValue) (w : Window) (text : string) :
  blocked (localStorage w) = false ->
  entry (localStorage w) = Some text ->
  text <> "" ->
  JSON_parse text = Some (JObject [("moveUp", JString "constructor")]) ->
  exists bindings world',
    loadRuntimeKeybindings JSON_parse (Some w) = (Normal bindings, world')
    /\ bindings = sanitizeBindings (JObject [("moveUp", JString "constructor")])
    /\ js_get bindings "moveUp" = JIntrinsic ObjectConstructor
    /\ typeof (js_get bindings "moveUp") = TyFunction.
Proof.
  intros Hb He Ht Hp.
  destruct (load_parsed JSON_parse w text _ Hb He Ht Hp eq_refl) as (table & El).
  eexists. eexists. split; [exact El|]. repeat split.
Qed.

Lemma load_returns_intrinsic_slot_witness :
  exists bindings world',
    loadRuntimeKeybindings FlatJSON.parse
      (Some (mkWindow
               (mkStorage false false
                  (Some (FlatJSON.stringify (JObject [("moveUp", JString "constructor")]))))
               (Some []) []))
    = (Normal bindings, world')
    /\ bindings = sanitizeBindings (JObject [("moveUp", JString "constructor")])
    /\ js_get bindings "moveUp" = JIntrinsic ObjectConstructor
    /\ typeof (js_get bindings "moveUp") = TyFunction.
Proof.
  apply (load_returns_intrinsic_slot FlatJSON.parse
           (mkWindow
              (mkStorage false false
                 (Some (FlatJSON.stringify (JObject [("moveUp", JString "constructor")]))))
              (Some []) [])
           (FlatJSON.stringify (JObject [("moveUp", JString "constructor")]))).
  - reflexivity.
  - reflexivity.
  - vm_compute. discriminate.
  - vm_compute. reflexivity.
Defined.

(** When the legacy label table exists and a synchronised slot holds an
    intrinsic object, computing its label throws inside the [try] of [load],
    and [load] returns the default mapping instead of the sanitised parse. *)
Lemma load_falls_back_when_label_throws
    (JSON_parse : string -> option JsValue) (st : Storage)
    (table : list (string * JsValue)) (events : list string) (text : string) :
  blocked st = false ->
  entry st = Some text ->
  text <> "" ->
  JSON_parse text = Some (JObject [("interact", JString "constructor")]) ->
  fst (loadRuntimeKeybindings JSON_parse (Some (mkWindow st (Some table) events)))
  = Normal DEFAULT_RUNTIME_KEYBINDINGS
  /\ js_get (sanitizeBindings (JObject [("interact", JString "constructor")])) "interact"
     = JIntrinsic ObjectConstructor.
Proof.
  intros Hb He Ht Hp. split; [|reflexivity].
  unfold loadRuntimeKeybindings, tryCatch, bind, localStorage_getItem.
  cbn [localStorage]. rewrite Hb, He, (truthy_text _ Ht). cbn [negb].
  unfold parseJSON. rewrite Hp. unfold ret.
  replace (syncSharedKeybindingDisplayConfig
             (sanitizeBindings (JObject [("interact", JString "constructor")]))
             (mkWindow st (Some table) events))
    with (@Throw unit TypeError, mkWindow st (Some table) events)
    by (vm_compute; reflexivity).
  destruct (sync_completes _ (mkWindow st (Some table) events) default_labelled)
    as (table' & ->).
  reflexivity.
Qed.

(** [save] is not guarded in the same way: in that situation it throws. *)
Lemma save_throws_when_label_throws
    (JSON_stringify : JsValue -> string) (st : Storage)
    (table : list (string * JsValue)) (events : list string) :
  fst (saveRuntimeKeybindings JSON_stringify
         (JObject [("interact", JString "constructor")])
         (Some (mkWindow st (Some table) events)))
  = Throw TypeError.
Proof.
  unfold saveRuntimeKeybindings, tryCatch, bind, localStorage_setItem.
  cbn [localStorage].
  destruct (blocked st); [|destruct (full st)]; vm_compute; reflexivity.
Qed.


(* ================================================================== *)
(** ** What holds for every input, and where the round trips hold *)

(** For every input the sanitised mapping has the registered action ids as
    its keys, in registry order; two distinct actions never hold the same
    value; no slot holds a reserved value; and every slot holds a token of
    the canonical vocabulary or an intrinsic object. *)
Theorem sanitize_invariants (value : JsValue) :
  Object_keys (sanitizeBindings value) = REBINDABLE_ACTION_IDS
  /\ (forall a b,
         In a REBINDABLE_ACTION_IDS -> In b REBINDABLE_ACTION_IDS -> a <> b ->
         js_get (sanitizeBindings value) a <> js_get (sanitizeBindings value) b)
  /\ (forall a,
         In a REBINDABLE_ACTION_IDS ->
         isReservedBinding (js_get (sanitizeBindings value) a) = false
         /\ ((exists t, js_get (sanitizeBindings value) a = JString t
                        /\ In t canonicalTokens)
             \/ exists i, js_get (sanitizeBindings value) a = JIntrinsic i)).
Proof.
  split; [apply sanitize_keys | split; [apply sanitize_injective|]].
  intros a Ha. destruct (sanitize_settled value a Ha) as (Hs & Hr & Hc).
  split; [assumption|].
  destruct (js_get (sanitizeBindings value) a); try contradiction.
  - left. eexists. split; [reflexivity | now apply Hc].
  - right. eexists. reflexivity.
Qed.

(** When every slot of the sanitised mapping holds a string, sanitising it
    again returns it unchanged. *)
Theorem sanitize_idempotent_when_tokens (value : JsValue) :
  (forall a, In a REBINDABLE_ACTION_IDS ->
             exists t, js_get (sanitizeBindings value) a = JString t) ->
  sanitizeBindings (JObject (sanitizeBindings value)) = sanitizeBindings value.
Proof. apply sanitize_idempotent_on_tokens. Qed.

Lemma sanitize_idempotent_when_tokens_witness :
  sanitizeBindings
    (JObject (sanitizeBindings
                (JObject [("moveUp", JString "KeyZ"); ("sprint", JString " CTRL ");
                          ("chat", JString "Digit4"); ("moveLeft", JBoolean true)])))
  = sanitizeBindings
      (JObject [("moveUp", JString "KeyZ"); ("sprint", JString " CTRL ");
                ("chat", JString "Digit4"); ("moveLeft", JBoolean true)]).
Proof.
  apply sanitize_idempotent_when_tokens.
  intros a Ha. simpl in Ha.
  repeat (destruct Ha as [<-|Ha]; [vm_compute; eexists; reflexivity|]). contradiction.
Defined.

(** When every slot of the sanitised mapping holds a string, the storage
    accepts the write and JSON.parse reads back what JSON.stringify wrote,
    [load] after [save value] returns [sanitizeBindings value]. *)
Theorem load_after_save_when_tokens (JSON_parse : string -> option JsValue)
    (JSON_stringify : JsValue -> string) (w : Window) (value : JsValue) :
  blocked (localStorage w) = false ->
  full (localStorage w) = false ->
  (forall a, In a REBINDABLE_ACTION_IDS ->
             exists t, js_get (sanitizeBindings value) a = JString t) ->
  JSON_stringify (JObject (sanitizeBindings value)) <> "" ->
  JSON_parse (JSON_stringify (JObject (sanitizeBindings value)))
  = Some (jsonImage (JObject (sanitizeBindings value))) ->
  exists w1 w2,
    saveRuntimeKeybindings JSON_stringify value (Some w)
    = (Normal (sanitizeBindings value), Some w1)
    /\ loadRuntimeKeybindings JSON_parse (Some w1)
       = (Normal (sanitizeBindings value), Some w2).
Proof. apply load_after_save_on_tokens. Qed.

Lemma load_after_save_when_tokens_witness :
  exists w1 w2,
    saveRuntimeKeybindings FlatJSON.stringify
      (JObject [("moveUp", JString "KeyZ"); ("sprint", JString " CTRL ")])
      (Some (mkWindow (mkStorage false false None) (Some []) []))
    = (Normal (sanitizeBindings
                 (JObject [("moveUp", JString "KeyZ"); ("sprint", JString " CTRL ")])),
       Some w1)
    /\ loadRuntimeKeybindings FlatJSON.parse (Some w1)
       = (Normal (sanitizeBindings
                    (JObject [("moveUp", JString "KeyZ"); ("sprint", JString " CTRL ")])),
          Some w2).
Proof.
  apply (load_after_save_when_tokens FlatJSON.parse FlatJSON.stringify).
  - reflexivity.
  - reflexivity.
  - intros a Ha. simpl in Ha.
    repeat (destruct Ha as [<-|Ha]; [vm_compute; eexists; reflexivity|]). contradiction.
  - vm_compute. discriminate.
  - vm_compute. reflexivity.
Defined.

(** [load] never throws, whatever the window, the storage and the parser;
    and it returns the default mapping when there is no window, the storage
    is blocked, there is no entry or an empty one, or JSON.parse rejects the
    entry. *)
Theorem load_total (JSON_parse : string -> option JsValue) (world : World) :
  (exists bindings world',
      loadRuntimeKeybindings JSON_parse world = (Normal bindings, world'))
  /\ (match world with
      | None => True
      | Some w =>
          blocked (localStorage w) = true
          \/ match entry (localStorage w) with
             | None => True
             | Some text => text = "" \/ JSON_parse text = None
             end
      end ->
      fst (loadRuntimeKeybindings JSON_parse world) = Normal DEFAULT_RUNTIME_KEYBINDINGS).
Proof. split; [apply load_never_throws | apply load_defaults]. Qed.

Lemma load_total_witness :
  fst (loadRuntimeKeybindings FlatJSON.parse
         (Some (mkWindow (mkStorage false false (Some "{not json")) (Some []) [])))
  = Normal DEFAULT_RUNTIME_KEYBINDINGS.
Proof.
  apply (proj2 (load_total FlatJSON.parse
                  (Some (mkWindow (mkStorage false false (Some "{not json")) (Some []) [])))).
  right. right. vm_compute. reflexivity.
Defined.

(* ================================================================== *)
(** ** Sanitiser: what each slot holds *)

Lemma fold_left_ext_in {A B : Type} (f g : A -> B -> A) (l : list B) (x : A) :
  (forall st b, In b l -> f st b = g st b) ->
  fold_left f l x = fold_left g l x.
Proof.
  revert x. induction l as [|b l IH]; intros x H; [reflexivity|].
  simpl. rewrite (H x b (or_introl eq_refl)). apply IH.
  intros st c Hc. apply H. now right.
Qed.

Lemma JsType_eqb_eq (a b : JsType) : JsType_eqb a b = true <-> a = b.
Proof. destruct a, b; simpl; split; intros H; try discriminate; reflexivity. Qed.

Lemma sanitizeStep_skip (record : JsValue) (state : RuntimeKeybindings * JsSet)
    (a : string) :
  typeof (record_get record a) <> TyString -> sanitizeStep record state a = state.
Proof.
  intros H. unfold sanitizeStep. destruct state as [sanitized seen].
  destruct (JsType_eqb (typeof (record_get record a)) TyString) eqn:E; [|reflexivity].
  apply JsType_eqb_eq in E. contradiction.
Qed.

(** The loop run over a prefix [t1] of the entries still to do. *)
Lemma loop_prefix (record : JsValue) (t1 : RuntimeKeybindings) :
  forall (done t2 : RuntimeKeybindings) (seen : JsSet),
    consistent (done ++ t1 ++ t2) seen ->
    exists r1 seen',
      fold_left (sanitizeStep record) (map fst t1) (done ++ t1 ++ t2, seen)
      = (done ++ r1 ++ t2, seen')
      /\ consistent (done ++ r1 ++ t2) seen'
      /\ map fst r1 = map fst t1.
Proof.
  induction t1 as [|[a d] t1 IH]; intros done t2 seen Hc.
  - exists [], seen. repeat split; apply Hc.
  - change (map fst ((a, d) :: t1)) with (a :: map fst t1). cbn [fold_left].
    change (done ++ ((a, d) :: t1) ++ t2) with (done ++ (a, d) :: t1 ++ t2) in *.
    rewrite (sanitizeStep_focus record done (t1 ++ t2) a d seen
               (consistent_focus_key _ _ _ _ _ Hc)).
    destruct (commits record a d seen) eqn:C.
    + set (n := normalizeBindingToken (record_get record a)) in *.
      assert (Hn : consistent (done ++ (a, n) :: t1 ++ t2) (Set_add (Set_delete seen d) n)).
      { apply consistent_replace; [assumption | eapply commits_settled, C |].
        unfold commits in C. rewrite !andb_true_iff, !negb_true_iff in C. apply C. }
      replace (done ++ (a, n) :: t1 ++ t2) with ((done ++ [(a, n)]) ++ t1 ++ t2) in *
        by (rewrite <- app_assoc; reflexivity).
      destruct (IH _ _ _ Hn) as (r1 & seen' & E & Hc' & Hk).
      exists ((a, n) :: r1), seen'.
      replace (done ++ ((a, n) :: r1) ++ t2) with ((done ++ [(a, n)]) ++ r1 ++ t2)
        by (rewrite <- app_assoc; reflexivity).
      repeat split; try assumption; try apply Hc'. simpl. now f_equal.
    + replace (done ++ (a, d) :: t1 ++ t2) with ((done ++ [(a, d)]) ++ t1 ++ t2) in *
        by (rewrite <- app_assoc; reflexivity).
      destruct (IH _ _ _ Hc) as (r1 & seen' & E & Hc' & Hk).
      exists ((a, d) :: r1), seen'.
      replace (done ++ ((a, d) :: r1) ++ t2) with ((done ++ [(a, d)]) ++ r1 ++ t2)
        by (rewrite <- app_assoc; reflexivity).
      repeat split; try assumption; try apply Hc'. simpl. now f_equal.
Qed.

(** The state of the loop when it reaches the entry of [a], and the mapping
    it returns: the slot of [a] is decided by [commits] in that state. *)
Lemma sanitize_at (value : JsValue) (pre post : RuntimeKeybindings) (a : string)
    (d : JsValue) :
  isRecord value = true ->
  DEFAULT_RUNTIME_KEYBINDINGS = pre ++ (a, d) :: post ->
  exists r1 seen1 result,
    consistent (r1 ++ (a, d) :: post) seen1
    /\ map fst r1 = map fst pre
    /\ map fst result = map fst post
    /\ sanitizeBindings value
       = r1 ++ (a, if commits value a d seen1
                   then normalizeBindingToken (record_get value a) else d) :: result.
Proof.
  intros Hrec Hdef.
  assert (Hc0 : consistent ([] ++ pre ++ (a, d) :: post)
                  (seedSeen DEFAULT_RUNTIME_KEYBINDINGS))
    by (simpl; rewrite <- Hdef; apply default_consistent).
  destruct (loop_prefix value pre [] ((a, d) :: post) _ Hc0) as (r1 & seen1 & E1 & C1 & K1).
  simpl app in E1, C1.
  assert (Hkey := consistent_focus_key _ _ _ _ _ C1).
  set (v := if commits value a d seen1
            then normalizeBindingToken (record_get value a) else d).
  assert (Hstep : sanitizeStep value (r1 ++ (a, d) :: post, seen1) a
                  = (r1 ++ (a, v) :: post,
                     if commits value a d seen1
                     then Set_add (Set_delete seen1 d)
                            (normalizeBindingToken (record_get value a))
                     else seen1)).
  { rewrite (sanitizeStep_focus value r1 post a d seen1 Hkey). unfold v.
    destruct (commits value a d seen1); reflexivity. }
  assert (Cv : consistent ((r1 ++ [(a, v)]) ++ post)
                 (if commits value a d seen1
                  then Set_add (Set_delete seen1 d)
                         (normalizeBindingToken (record_get value a))
                  else seen1)).
  { rewrite <- app_assoc. simpl. unfold v.
    destruct (commits value a d seen1) eqn:C; [|exact C1].
    apply consistent_replace; [assumption | eapply commits_settled, C |].
    unfold commits in C. rewrite !andb_true_iff, !negb_true_iff in C. apply C. }
  destruct (loop_repairs value post _ _ Cv) as (result & seen' & E2 & _ & Hr).
  exists r1, seen1, result. split; [exact C1|]. split; [exact K1|].
  split; [now apply Repaired_keys in Hr|].
  rewrite sanitizeBindings_unfold, Hrec.
  assert (Hids : REBINDABLE_ACTION_IDS = map fst pre ++ a :: map fst post)
    by (unfold REBINDABLE_ACTION_IDS, Object_keys; rewrite Hdef, map_app; reflexivity).
  assert (F : fold_left (sanitizeStep value) REBINDABLE_ACTION_IDS
                (pre ++ (a, d) :: post, seedSeen DEFAULT_RUNTIME_KEYBINDINGS)
              = ((r1 ++ [(a, v)]) ++ result, seen')).
  { rewrite Hids, fold_left_app, E1. cbn [fold_left]. rewrite Hstep.
    replace (r1 ++ (a, v) :: post) with ((r1 ++ [(a, v)]) ++ post)
      by (rewrite <- app_assoc; reflexivity).
    exact E2. }
  rewrite <- app_assoc in F. cbn [app] in F.
  rewrite <- Hdef in F.
  match goal with
  | |- fst ?x = ?y => change (fst x = fst (y, seen'))
  end.
  f_equal. exact F.
Qed.

Lemma values_of_prefix (r1 rest : RuntimeKeybindings) (n : JsValue) :
  NoDup (map fst (r1 ++ rest)) ->
  (In n (map snd r1) <->
   exists b, In b (map fst r1) /\ js_get (r1 ++ rest) b = n).
Proof.
  intros Hnd. split.
  - intros H. apply in_map_iff in H as ([b x] & <- & Hin). exists b. split.
    + apply in_map_iff. now exists (b, x).
    + apply In_js_get; [assumption | apply in_or_app; now left].
  - intros (b & Hb & <-).
    apply in_map_iff in Hb as ([b' x] & <- & Hin). simpl.
    rewrite (In_js_get _ b' x Hnd) by (apply in_or_app; now left).
    apply in_map_iff. now exists (b', x).
Qed.

(** In the state of the loop at the entry of [a], the test of the in-use set
    asks whether an earlier slot or a later default holds the value. *)
Lemma in_use_iff (done todo : RuntimeKeybindings) (a : string) (d n : JsValue)
    (seen : JsSet) :
  consistent (done ++ (a, d) :: todo) seen ->
  slotValue n ->
  (Set_has (Set_delete seen d) n = true <->
   In n (map snd done) \/ In n (map snd todo)).
Proof.
  intros Hc Sn.
  destruct (consistent_focus_value _ _ _ _ _ Hc) as [Hd1 Hd2].
  destruct Hc as (_ & _ & Hseen & Hall).
  rewrite map_app, Forall_app in Hall. destruct Hall as [_ Hall].
  apply Forall_cons_iff in Hall as [[Sd _] _].
  rewrite (Set_has_In _ _ Sn), (Set_delete_In _ _ _ Sd), Hseen, map_app, in_app_iff.
  simpl. split.
  - intros [[H|[H|H]] Hne]; [tauto | congruence | tauto].
  - intros [H|H]; (split; [tauto | intros ->; tauto]).
Qed.

Lemma truthy_normalized_slot (token : JsValue) :
  truthy (normalizeBindingToken token) = true -> slotValue (normalizeBindingToken token).
Proof.
  destruct (normalize_range token) as [E|[(t & E & _)|(i & E)]]; rewrite E; simpl;
    [discriminate | intros _; exact I | intros _; exact I].
Qed.

Lemma sanitize_slot_at (value : JsValue) (pre post : RuntimeKeybindings) (a : string)
    (d : JsValue) :
  isRecord value = true ->
  DEFAULT_RUNTIME_KEYBINDINGS = pre ++ (a, d) :: post ->
  let raw := record_get value a in
  let n := normalizeBindingToken raw in
  let s := sanitizeBindings value in
  let accepted :=
    typeof raw = TyString /\ truthy n = true /\ isReservedBinding n = false
    /\ (forall b, In b (map fst pre) -> js_get s b <> n)
    /\ ~ In n (map snd post) in
  (accepted -> js_get s a = n) /\ (~ accepted -> js_get s a = d).
Proof.
  intros Hrec Hdef raw n s accepted.
  destruct (sanitize_at value pre post a d Hrec Hdef)
    as (r1 & seen1 & result & C1 & K1 & K2 & Es).
  assert (Hkey := consistent_focus_key _ _ _ _ _ C1).
  assert (Hnd : NoDup (map fst s)).
  { destruct (sanitize_repaired value) as (seen & (Hk & _) & _). exact Hk. }
  assert (Hslot : js_get s a = if commits value a d seen1 then n else d)
    by (unfold s; rewrite Es; now apply js_get_focus).
  assert (Hearlier : forall x, In x (map snd r1) <->
                               exists b, In b (map fst pre) /\ js_get s b = x).
  { intros x. rewrite <- K1. unfold s in *. rewrite Es in *.
    now apply values_of_prefix. }
  assert (Hiff : commits value a d seen1 = true <-> accepted).
  { unfold commits, accepted. fold raw. fold n.
    rewrite !andb_true_iff, !negb_true_iff, JsType_eqb_eq. split.
    - intros [[[Ht Hn] Hr] Hu]. repeat split; try assumption.
      + intros b Hb E. assert (U : Set_has (Set_delete seen1 d) n = true).
        { apply (in_use_iff _ _ _ _ _ _ C1 (truthy_normalized_slot _ Hn)).
          left. apply Hearlier. now exists b. }
        rewrite U in Hu. discriminate.
      + intros Hin. assert (U : Set_has (Set_delete seen1 d) n = true).
        { apply (in_use_iff _ _ _ _ _ _ C1 (truthy_normalized_slot _ Hn)). now right. }
        rewrite U in Hu. discriminate.
    - intros (Ht & Hn & Hr & He & Hl). repeat split; try assumption.
      destruct (Set_has (Set_delete seen1 d) n) eqn:U; [|reflexivity].
      apply (in_use_iff _ _ _ _ _ _ C1 (truthy_normalized_slot _ Hn)) in U.
      destruct U as [U|U]; [|contradiction].
      apply Hearlier in U as (b & Hb & E). exfalso. now apply (He b). }
  split.
  - intros H. apply Hiff in H. now rewrite Hslot, H.
  - intros H. rewrite Hslot. destruct (commits value a d seen1); [|reflexivity].
    exfalso. apply H, Hiff. reflexivity.
Qed.

(** How [sanitizeBindings] fills the slot of one action: with the candidate's
    normalised token when the field is a string whose normalisation is
    truthy, not reserved, held by no earlier-declared action in the result
    and not the default of a later-declared action; with the action's default
    otherwise. *)
Theorem sanitize_slot (value : JsValue) (pre post : RuntimeKeybindings) (a : string)
    (d : JsValue) :
  isRecord value = true ->
  DEFAULT_RUNTIME_KEYBINDINGS = pre ++ (a, d) :: post ->
  let raw := record_get value a in
  let n := normalizeBindingToken raw in
  let s := sanitizeBindings value in
  let accepted :=
    typeof raw = TyString /\ truthy n = true /\ isReservedBinding n = false
    /\ (forall b, In b (map fst pre) -> js_get s b <> n)
    /\ ~ In n (map snd post) in
  (accepted -> js_get s a = n) /\ (~ accepted -> js_get s a = d).
Proof. apply sanitize_slot_at. Qed.

Lemma sanitize_slot_witness :
  js_get (sanitizeBindings
            (JObject [("moveUp", JString "KeyZ"); ("moveLeft", JString " keyz");
                      ("moveDown", JString "KeyZ")])) "moveDown"
  = JString "KeyS".
Proof.
  apply (sanitize_slot
           (JObject [("moveUp", JString "KeyZ"); ("moveLeft", JString " keyz");
                     ("moveDown", JString "KeyZ")])
           (firstn 2 DEFAULT_RUNTIME_KEYBINDINGS) (skipn 3 DEFAULT_RUNTIME_KEYBINDINGS)
           "moveDown" (JString "KeyS")).
  - reflexivity.
  - reflexivity.
  - intros (_ & _ & _ & H & _). apply (H "moveUp"); [simpl; tauto | reflexivity].
Defined.

Lemma Repaired_spec (todo result : RuntimeKeybindings) :
  Repaired todo result <->
  map fst result = map fst todo
  /\ forall pre a v post,
       result = pre ++ (a, v) :: post ->
       ~ In v (map snd (skipn (S (List.length pre)) todo)).
Proof.
  split.
  - induction 1 as [|a d v todo result Hfree Hr [IHk IH]].
    + split; [reflexivity|]. intros [|p pre] a v post E; discriminate E.
    + split; [simpl; now f_equal|].
      intros [|p pre] a' v' post E.
      * injection E as -> -> _. exact Hfree.
      * injection E as _ E. simpl. now apply (IH pre a' v' post).
  - revert result. induction todo as [|[a d] todo IH]; intros result [Hk H].
    + destruct result; [constructor | discriminate Hk].
    + destruct result as [|[a' v] result]; [discriminate Hk|].
      injection Hk as -> Hk. constructor.
      * apply (H [] a v result eq_refl).
      * apply IH. split; [assumption|].
        intros pre b w post E. apply (H ((a, v) :: pre) b w post). simpl. now f_equal.
Qed.

(** Which valid mappings the sanitiser leaves alone.  A mapping whose values
    are distinct, non-reserved tokens of the canonical vocabulary is returned
    unchanged exactly when it has the registry's keys in registry order and no
    slot holds the default of a later-declared action. *)
Theorem sanitize_fixed_point_iff (m : RuntimeKeybindings) :
  Forall settledToken (map snd m) ->
  NoDup (map snd m) ->
  (sanitizeBindings (JObject m) = m <->
   map fst m = REBINDABLE_ACTION_IDS
   /\ forall pre a v post,
        m = pre ++ (a, v) :: post ->
        ~ In v (map snd (skipn (S (List.length pre)) DEFAULT_RUNTIME_KEYBINDINGS))).
Proof.
  intros Hall Hnd.
  change REBINDABLE_ACTION_IDS with (map fst DEFAULT_RUNTIME_KEYBINDINGS).
  rewrite <- Repaired_spec. split.
  - intros E. destruct (sanitize_repaired (JObject m)) as (_ & _ & Hr).
    now rewrite E in Hr.
  - intros Hr.
    destruct (loop_replays m DEFAULT_RUNTIME_KEYBINDINGS m Hr [] _ eq_refl Hnd Hall
                default_consistent) as (seen' & E).
    rewrite sanitizeBindings_unfold. cbn [isRecord truthy typeof JsType_eqb andb].
    match goal with
    | |- fst ?x = _ => change (fst x = fst (@nil (string * JsValue) ++ m, seen'))
    end.
    f_equal. exact E.
Qed.

Lemma default_tokens : Forall settledToken (map snd DEFAULT_RUNTIME_KEYBINDINGS).
Proof.
  assert (H := default_consistent). destruct H as (_ & _ & _ & Hs).
  rewrite Forall_forall in *. intros v Hv. split; [now apply Hs|].
  simpl in Hv. repeat (destruct Hv as [<-|Hv]; [eexists; reflexivity|]). contradiction.
Qed.

Lemma sanitize_fixed_point_iff_witness :
  map fst DEFAULT_RUNTIME_KEYBINDINGS = REBINDABLE_ACTION_IDS
  /\ forall pre a v post,
       DEFAULT_RUNTIME_KEYBINDINGS = pre ++ (a, v) :: post ->
       ~ In v (map snd (skipn (S (List.length pre)) DEFAULT_RUNTIME_KEYBINDINGS)).
Proof.
  apply (proj1 (sanitize_fixed_point_iff DEFAULT_RUNTIME_KEYBINDINGS default_tokens
                  (proj1 (proj2 default_consistent)))).
  vm_compute. reflexivity.
Defined.

(** The sanitiser reads the fifteen registered fields and nothing else: two
    values that agree on the object test and on those fields have the same
    sanitised mapping (unknown keys are ignored). *)
Theorem sanitize_reads_registered_fields (value value' : JsValue) :
  isRecord value = isRecord value' ->
  (forall a, In a REBINDABLE_ACTION_IDS -> record_get value a = record_get value' a) ->
  sanitizeBindings value = sanitizeBindings value'.
Proof.
  intros Hrec H. rewrite !sanitizeBindings_unfold, Hrec.
  destruct (isRecord value'); [|reflexivity]. f_equal.
  apply fold_left_ext_in. intros [sanitized seen] a Ha.
  unfold sanitizeStep. now rewrite (H a Ha).
Qed.

Lemma sanitize_reads_registered_fields_witness :
  sanitizeBindings (JObject [("moveUp", JString "KeyZ")])
  = sanitizeBindings
      (JObject [("volume", JNumber 3%float); ("moveUp", JString "KeyZ");
                ("moveUpAgain", JString "KeyQ"); ("toString", JString "KeyP")]).
Proof.
  apply sanitize_reads_registered_fields.
  - reflexivity.
  - intros a Ha. simpl in Ha.
    repeat (destruct Ha as [<-|Ha]; [reflexivity|]). contradiction.
Defined.

Lemma fold_left_fixed {A B : Type} (f : A -> B -> A) (l : list B) (x : A) :
  (forall st b, In b l -> f st b = st) -> fold_left f l x = x.
Proof.
  intros H. rewrite (fold_left_ext_in f (fun st _ => st) l x H).
  clear H. induction l; [reflexivity | assumption].
Qed.

(** A value none of whose registered fields is a string is sanitised to the
    default mapping; in particular every value that is not a plain object
    (null, undefined, booleans, numbers, strings, arrays, functions). *)
Theorem sanitize_defaults_without_string_fields :
  (forall value,
      (forall a, In a REBINDABLE_ACTION_IDS -> typeof (record_get value a) <> TyString) ->
      sanitizeBindings value = DEFAULT_RUNTIME_KEYBINDINGS)
  /\ (forall value,
         (forall props, value <> JObject props) ->
         sanitizeBindings value = DEFAULT_RUNTIME_KEYBINDINGS).
Proof.
  assert (A : forall value,
             (forall a, In a REBINDABLE_ACTION_IDS ->
                        typeof (record_get value a) <> TyString) ->
             sanitizeBindings value = DEFAULT_RUNTIME_KEYBINDINGS).
  { intros value H. rewrite sanitizeBindings_unfold.
    destruct (isRecord value); [|reflexivity].
    rewrite fold_left_fixed; [reflexivity|].
    intros st a Ha. now apply sanitizeStep_skip, H. }
  split; [exact A|].
  intros value H. apply A. intros a _.
  destruct value; try discriminate. exfalso. now apply (H props).
Qed.

Lemma sanitize_defaults_without_string_fields_witness :
  sanitizeBindings
    (JObject [("moveUp", JNumber 1%float); ("chat", JArray [JString "KeyZ"]);
              ("other", JString "KeyZ")])
  = DEFAULT_RUNTIME_KEYBINDINGS.
Proof.
  apply (proj1 sanitize_defaults_without_string_fields).
  intros a Ha. simpl in Ha.
  repeat (destruct Ha as [<-|Ha]; [discriminate|]). contradiction.
Defined.

(* ================================================================== *)
(** ** Key events against bindings *)

Lemma normalizeCapturedKey_string (code t : string) :
  normalizeCapturedKey code = JString t ->
  normalizeBindingToken (JString code) = JString t.
Proof.
  unfold normalizeCapturedKey.
  destruct (negb (truthy (JString code)) || String.eqb code "Unidentified");
    [discriminate | trivial].
Qed.

(** Capturing a key and matching it again.  When the code of a key event is
    captured as the token [t], the same event matches [t] exactly when its
    code is in canonical spelling; and every code in canonical spelling is
    captured as some token. *)
Theorem capture_then_match (code t : string) :
  (normalizeCapturedKey code = JString t ->
   (matchesBinding (JString code) (JString t) = true <-> In code canonicalCodes))
  /\ (In code canonicalCodes -> exists u, normalizeCapturedKey code = JString u).
Proof.
  assert (A : forallb (fun c =>
                match normalizeCapturedKey c with
                | JString u => matchesBinding (JString c) (JString u)
                | _ => false
                end) canonicalCodes = true) by (vm_compute; reflexivity).
  rewrite forallb_forall in A.
  split.
  - intros Hcap. split.
    + intros Hm.
      assert (Ht : In t canonicalTokens)
        by (eapply normalize_string_canonical, normalizeCapturedKey_string, Hcap).
      assert (B : forallb (fun x =>
                    forallb (fun c => match c with
                                      | JString y => Str.oneOf canonicalCodes y
                                      | _ => false
                                      end) (getBindingEventCodes (JString x)))
                    canonicalTokens = true) by (vm_compute; reflexivity).
      rewrite forallb_forall in B. specialize (B t Ht). rewrite forallb_forall in B.
      unfold matchesBinding in Hm. apply existsb_exists in Hm as (c & Hc & E).
      specialize (B c Hc). apply (sameValueZero_slot (JString code) c I) in E.
      subst c. now apply oneOf_In.
    + intros Hin. specialize (A code Hin). now rewrite Hcap in A.
  - intros Hin. specialize (A code Hin).
    destruct (normalizeCapturedKey code); try discriminate A. eexists. reflexivity.
Qed.

Lemma capture_then_match_witness :
  matchesBinding (JString "ControlRight") (JString "Control") = true
  <-> In "ControlRight" canonicalCodes.
Proof.
  apply (proj1 (capture_then_match "ControlRight" "Control")). reflexivity.
Defined.

(** In a sanitised mapping, a key event matches the binding of at most one
    action: when it matches the binding of one action, it matches the binding
    of no other. *)
Theorem one_action_per_key (value : JsValue) (code a b : string) :
  In a REBINDABLE_ACTION_IDS ->
  In b REBINDABLE_ACTION_IDS ->
  a <> b ->
  matchesBinding (JString code) (js_get (sanitizeBindings value) a) = true ->
  matchesBinding (JString code) (js_get (sanitizeBindings value) b) = false.
Proof.
  intros Ha Hb N Ma.
  destruct (matchesBinding (JString code) (js_get (sanitizeBindings value) b)) eqn:Mb;
    [|reflexivity].
  exfalso.
  apply (sanitize_injective value a b Ha Hb N).
  assert (T : forall x, In x REBINDABLE_ACTION_IDS ->
                matchesBinding (JString code) (js_get (sanitizeBindings value) x) = true ->
                exists t, js_get (sanitizeBindings value) x = JString t
                          /\ In t canonicalTokens
                          /\ In (JString code) (getBindingEventCodes (JString t))).
  { intros x Hx M. destruct (sanitize_settled value x Hx) as (Sx & _ & Cx).
    destruct (js_get (sanitizeBindings value) x) as [| | | |t| | |i]; try contradiction.
    - exists t. split; [reflexivity|]. split; [now apply Cx|].
      unfold matchesBinding in M. apply existsb_exists in M as (c & Hc & E).
      apply (sameValueZero_slot (JString code) c I) in E. now subst c.
    - discriminate M. }
  destruct (T a Ha Ma) as (t & Et & Ct & Kt).
  destruct (T b Hb Mb) as (u & Eu & Cu & Ku).
  rewrite Et, Eu. f_equal. apply canonical_codes_disjoint; try assumption.
  now exists (JString code).
Qed.

Lemma one_action_per_key_witness :
  matchesBinding (JString "ShiftLeft")
    (js_get (sanitizeBindings (JObject [("moveUp", JString "KeyZ")])) "moveUp")
  = false.
Proof.
  apply (one_action_per_key (JObject [("moveUp", JString "KeyZ")]) "ShiftLeft"
           "sprint" "moveUp").
  - simpl. tauto.
  - simpl. tauto.
  - discriminate.
  - vm_compute. reflexivity.
Defined.

(* ================================================================== *)
(** ** Normaliser: white space, spelling and range *)

Lemma trimEnd_idempotent (s : string) : Str.trimEnd (Str.trimEnd s) = Str.trimEnd s.
Proof.
  induction s as [|c rest IH]; [reflexivity|].
  simpl. destruct (Str.trimEnd rest) as [|k kept] eqn:E.
  - destruct (Str.isWhiteSpace c) eqn:W; simpl; [reflexivity | now rewrite W].
  - change (Str.trimEnd (String c (String k kept)))
      with (match Str.trimEnd (String k kept) with
            | EmptyString => if Str.isWhiteSpace c then EmptyString else String c EmptyString
            | kept' => String c kept'
            end).
    rewrite IH. reflexivity.
Qed.

Lemma trimEnd_keeps_head (c : ascii) (rest : string) :
  Str.isWhiteSpace c = false ->
  exists kept, Str.trimEnd (String c rest) = String c kept.
Proof.
  intros W. simpl. destruct (Str.trimEnd rest).
  - rewrite W. now exists "".
  - eexists. reflexivity.
Qed.

Lemma trimStart_result (s : string) :
  Str.trimStart s = ""
  \/ exists c rest, Str.trimStart s = String c rest /\ Str.isWhiteSpace c = false.
Proof.
  induction s as [|c rest IH]; [now left|].
  simpl. destruct (Str.isWhiteSpace c) eqn:W; [exact IH|].
  right. now exists c, rest.
Qed.

Lemma trim_idempotent (s : string) : Str.trim (Str.trim s) = Str.trim s.
Proof.
  unfold Str.trim. destruct (trimStart_result s) as [E|(c & rest & E & W)]; rewrite E.
  - reflexivity.
  - destruct (trimEnd_keeps_head c rest W) as (kept & K). rewrite K.
    simpl Str.trimStart. rewrite W, <- K. apply trimEnd_idempotent.
Qed.

(** The normaliser ignores white space around its input, and a token it
    returns is either the trimmed input itself, unchanged, or a value of the
    alias table. *)
Theorem normalize_trims (s : string) :
  normalizeBindingToken (JString s) = normalizeBindingToken (JString (Str.trim s))
  /\ (forall t, normalizeBindingToken (JString s) = JString t ->
                t = Str.trim s \/ In t aliasTokens).
Proof.
  split.
  - unfold normalizeBindingToken. rewrite trim_idempotent.
    destruct s as [|c rest]; [reflexivity|].
    change (truthy (JString (String c rest))) with true. cbn [negb].
    destruct (truthy (JString (Str.trim (String c rest)))); reflexivity.
  - intros t. unfold normalizeBindingToken.
    destruct (negb (truthy (JString s))); [discriminate|].
    destruct (negb (truthy (JString (Str.trim s)))); [discriminate|].
    destruct (truthy (js_get CANONICAL_ALIASES (Str.toLowerCase (Str.trim s)))).
    + intros H. right. eapply alias_string_In, H.
    + destruct (matchesWhitelist (Str.trim s)); [|discriminate].
      intros [= <-]. now left.
Qed.

Lemma lowerChar_not_upper (c : ascii) : Str.isUpperAZ (Str.lowerChar c) = false.
Proof. each_char c; reflexivity. Qed.

Lemma toLowerCase_no_upper (s : string) :
  existsb Str.isUpperAZ (list_ascii_of_string (Str.toLowerCase s)) = false.
Proof.
  induction s as [|c rest IH]; [reflexivity|].
  simpl. now rewrite lowerChar_not_upper, IH.
Qed.

Lemma inherited_lowercase (s : string) :
  inherited (Str.toLowerCase s) = JIntrinsic ObjectConstructor
  \/ inherited (Str.toLowerCase s) = JIntrinsic ObjectPrototype
  \/ inherited (Str.toLowerCase s) = JUndefined.
Proof.
  unfold inherited.
  destruct (String.eqb (Str.toLowerCase s) "constructor"); [now left|].
  destruct (String.eqb (Str.toLowerCase s) "__proto__"); [right; now left|].
  destruct (Str.oneOf Object_prototype_methods (Str.toLowerCase s)) eqn:E;
    [|right; now right].
  exfalso. apply oneOf_In in E. assert (U := toLowerCase_no_upper s).
  simpl in E.
  repeat (destruct E as [E|E]; [rewrite <- E in U; discriminate U|]). contradiction.
Qed.

(** The range of the normaliser.  Every value that is not a string is
    rejected; the strings it returns are exactly the tokens of the canonical
    vocabulary; and whatever it returns is [null], such a token, the function
    Object or Object.prototype. *)
Theorem normalize_range_exact :
  (forall token, typeof token <> TyString -> normalizeBindingToken token = JNull)
  /\ (forall t, (exists token, normalizeBindingToken token = JString t)
                <-> In t canonicalTokens)
  /\ (forall token,
         normalizeBindingToken token = JNull
         \/ (exists t, normalizeBindingToken token = JString t /\ In t canonicalTokens)
         \/ normalizeBindingToken token = JIntrinsic ObjectConstructor
         \/ normalizeBindingToken token = JIntrinsic ObjectPrototype).
Proof.
  split; [|split].
  - intros token H. destruct token; try reflexivity. now elim H.
  - intros t. split.
    + intros (token & H). eapply normalize_string_canonical, H.
    + intros H. exists (JString t). now apply canonical_fixed.
  - intros token.
    destruct (normalize_range token) as [E|[H|(i & E)]]; [now left | right; now left |].
    right; right. rewrite E. unfold normalizeBindingToken in E.
    destruct token; try discriminate.
    destruct (negb (truthy (JString s))); [discriminate|].
    destruct (negb (truthy (JString (Str.trim s)))); [discriminate|].
    destruct (truthy (js_get CANONICAL_ALIASES (Str.toLowerCase (Str.trim s)))).
    + unfold js_get in E.
      destruct (own CANONICAL_ALIASES (Str.toLowerCase (Str.trim s))) as [v|] eqn:O.
      * apply own_In in O. simpl in O. subst v.
        repeat (destruct O as [O|O]; [discriminate O|]). contradiction.
      * destruct (inherited_lowercase (Str.trim s)) as [K|[K|K]]; rewrite K in E;
          [ injection E as <-; now left
          | injection E as <-; now right
          | discriminate E ].
    + destruct (matchesWhitelist (Str.trim s)); discriminate.
Qed.

(* ================================================================== *)
(** ** Conflict check on a sanitised mapping *)

Lemma strict_equals_slot (v x : JsValue) :
  slotValue v -> (strict_equals v x = true <-> v = x).
Proof.
  intros Hv. rewrite <- (sameValueZero_slot v x Hv).
  destruct v; try contradiction; reflexivity.
Qed.

(** On a sanitised mapping, no action conflicts with its own key, and a
    reported conflict names the one action that holds the candidate. *)
Theorem conflict_on_sanitized (value : JsValue) (a : string) (c : JsValue) :
  (In a REBINDABLE_ACTION_IDS ->
   findBindingConflict (sanitizeBindings value) a (js_get (sanitizeBindings value) a) = None)
  /\ (forall id,
         findBindingConflict (sanitizeBindings value) a c = Some id ->
         id <> a
         /\ js_get (sanitizeBindings value) id = c
         /\ forall other,
              In other REBINDABLE_ACTION_IDS ->
              js_get (sanitizeBindings value) other = c -> other = id).
Proof.
  split.
  - intros Ha. apply conflict_from_None. intros id Hid [Hne E].
    apply (strict_equals_slot _ _ (proj1 (sanitize_settled value id Hid))) in E.
    now apply (sanitize_injective value id a Hid Ha Hne).
  - intros id H. apply conflict_from_Some in H as (before & after & Hids & [Hne E] & _).
    assert (Hid : In id REBINDABLE_ACTION_IDS)
      by (rewrite Hids; apply in_or_app; right; now left).
    apply (strict_equals_slot _ _ (proj1 (sanitize_settled value id Hid))) in E.
    repeat split; try assumption.
    intros other Ho Eo. destruct (string_dec other id) as [K|K]; [exact K|].
    exfalso. apply (sanitize_injective value other id Ho Hid K). congruence.
Qed.

Lemma conflict_on_sanitized_witness :
  findBindingConflict (sanitizeBindings (JObject [("chat", JString "KeyZ")])) "chat"
    (js_get (sanitizeBindings (JObject [("chat", JString "KeyZ")])) "chat") = None.
Proof.
  apply (proj1 (conflict_on_sanitized (JObject [("chat", JString "KeyZ")]) "chat" JNull)).
  simpl. tauto.
Defined.

(* ================================================================== *)
(** ** Display labels *)



(* ================================================================== *)
(** ** The legacy label table *)

Lemma own_set_same (table : list (string * JsValue)) (k : string) (v : JsValue) :
  own (js_set table k v) k = Some v.
Proof.
  induction table as [|[k' x] rest IH]; simpl.
  - now rewrite String.eqb_refl.
  - destruct (String.eqb_spec k' k) as [->|N]; simpl.
    + now rewrite String.eqb_refl.
    + destruct (String.eqb_spec k' k); [contradiction | exact IH].
Qed.

Lemma own_set_other (table : list (string * JsValue)) (k k' : string) (v : JsValue) :
  k <> k' -> own (js_set table k v) k' = own table k'.
Proof.
  intros N. induction table as [|[k0 x] rest IH]; simpl.
  - destruct (String.eqb_spec k k'); [contradiction | reflexivity].
  - destruct (String.eqb_spec k0 k) as [->|N0]; simpl.
    + destruct (String.eqb_spec k k'); [contradiction | reflexivity].
    + destruct (String.eqb_spec k0 k'); [reflexivity | exact IH].
Qed.

Lemma js_get_set_same (table : list (string * JsValue)) (k : string) (v : JsValue) :
  js_get (js_set table k v) k = v.
Proof. unfold js_get. now rewrite own_set_same. Qed.

Lemma js_get_set_other (table : list (string * JsValue)) (k k' : string) (v : JsValue) :
  k <> k' -> js_get (js_set table k v) k' = js_get table k'.
Proof. intros N. unfold js_get. now rewrite own_set_other. Qed.

Lemma upperCased_result (s : string) :
  (exists u, upperCased s = Normal (JString u)) \/ upperCased s = Beyond.
Proof.
  unfold upperCased. destruct (Str.toUpperCase s); [left; eexists; reflexivity | now right].
Qed.

Lemma firstMatcher_result (ms : list ((string -> option ascii) * (ascii -> string)))
    (t : string) (c : Completion JsValue) :
  firstMatcher ms t = Some c -> (exists u, c = Normal (JString u)) \/ c = Beyond.
Proof.
  induction ms as [|[pattern formatter] ms IH]; [discriminate|].
  simpl. destruct (pattern t) as [x|]; [|exact IH].
  intros [= <-]. apply upperCased_result.
Qed.

Lemma toConfigLabel_throws (v : JsValue) (e : Exn) :
  toConfigLabel v = Throw e -> e = TypeError.
Proof.
  unfold toConfigLabel, formatBindingForDisplay.
  destruct v; try (intros [= <-]; reflexivity).
  destruct (firstMatcher matchers s) as [c|] eqn:F.
  - apply firstMatcher_result in F as [(u & ->)| ->]; discriminate.
  - destruct (truthy (js_get specialLabels s)).
    + destruct (js_get specialLabels s); try discriminate; intros [= <-]; reflexivity.
    + destruct (upperCased_result s) as [(u & ->)| ->]; discriminate.
Qed.

Ltac label_step W :=
  match goal with
  | |- context [toConfigLabel ?x] =>
      let E := fresh "E" in
      destruct (toConfigLabel x) as [?|?e|] eqn:E;
      [| apply toConfigLabel_throws in E as ?; subst;
         eexists; eexists; split; [reflexivity|];
         split; [right; split; [reflexivity|]; split; [discriminate|];
                 unfold labelled, syncedActions; cbn [forallb];
                 repeat match goal with
                        | H : toConfigLabel _ = _ |- _ => rewrite H; clear H
                        end; reflexivity
                | discriminate ]
       | exfalso; revert E; apply W; simpl; tauto ]
  end.

(** What [syncSharedKeybindingDisplayConfig] does to the window: it leaves
    the storage and the events alone, and either completes or throws a
    TypeError, the latter exactly when the table exists and some label cannot
    be computed. *)
Lemma sync_outcome (bindings : RuntimeKeybindings) (w : Window) :
  within bindings ->
  exists c table',
    syncSharedKeybindingDisplayConfig bindings w
    = (c, mkWindow (localStorage w) table' (dispatched w))
    /\ ((c = Normal tt /\ (config_keybindings w = None \/ labelled bindings = true))
        \/ (c = Throw TypeError /\ config_keybindings w <> None
            /\ labelled bindings = false))
    /\ (config_keybindings w = None -> table' = None).
Proof.
  intros W. destruct w as [st cfg ev].
  unfold syncSharedKeybindingDisplayConfig. cbn [config_keybindings].
  destruct cfg as [table|].
  2: { exists (Normal tt), None. repeat split. left. split; [reflexivity | now left]. }
  cbv [bind assignLabel config_keybindings localStorage dispatched option_map].
  label_step W. label_step W. label_step W. label_step W. label_step W.
  label_step W. label_step W. label_step W. label_step W.
  eexists; eexists. split; [reflexivity|]. split; [|discriminate].
  left. split; [reflexivity|]. right.
  unfold labelled, syncedActions. cbn [forallb].
  repeat match goal with
         | H : toConfigLabel _ = _ |- _ => rewrite H; clear H
         end.
  reflexivity.
Qed.

Lemma sync_table (bindings : RuntimeKeybindings) (w : Window) :
  labelled bindings = true ->
  match config_keybindings w with
  | None => syncSharedKeybindingDisplayConfig bindings w = (Normal tt, w)
  | Some table =>
      exists table',
        syncSharedKeybindingDisplayConfig bindings w
        = (Normal tt, mkWindow (localStorage w) (Some table') (dispatched w))
        /\ (forall field action,
               In (field, action) labelFields ->
               toConfigLabel (js_get bindings action) = Normal (js_get table' field))
        /\ js_get table' "TOGGLE_MUTE" = JString "n"
        /\ (forall key,
               ~ In key ("TOGGLE_MUTE" :: map fst labelFields) ->
               js_get table' key = js_get table key)
  end.
Proof.
  intros H. destruct w as [st cfg ev].
  unfold syncSharedKeybindingDisplayConfig. cbn [config_keybindings].
  destruct cfg as [table|]; [|reflexivity].
  unfold labelled, syncedActions in H. cbn [forallb] in H.
  rewrite !andb_true_iff in H.
  destruct H as (H1 & H2 & H3 & H4 & H5 & H6 & H7 & H8 & H9 & _).
  destruct (toConfigLabel (js_get bindings "interact")) as [l1| |] eqn:E1; try discriminate H1.
  destruct (toConfigLabel (js_get bindings "dropItem")) as [l2| |] eqn:E2; try discriminate H2.
  destruct (toConfigLabel (js_get bindings "quickHeal")) as [l3| |] eqn:E3; try discriminate H3.
  destruct (toConfigLabel (js_get bindings "sprint")) as [l4| |] eqn:E4; try discriminate H4.
  destruct (toConfigLabel (js_get bindings "chat")) as [l5| |] eqn:E5; try discriminate H5.
  destruct (toConfigLabel (js_get bindings "playerList")) as [l6| |] eqn:E6; try discriminate H6.
  destruct (toConfigLabel (js_get bindings "weaponsHud")) as [l7| |] eqn:E7; try discriminate H7.
  destruct (toConfigLabel (js_get bindings "quickSwitchWeapon")) as [l8| |] eqn:E8; try discriminate H8.
  destruct (toConfigLabel (js_get bindings "controlsPanel")) as [l9| |] eqn:E9; try discriminate H9.
  cbv [bind assignLabel config_keybindings localStorage dispatched option_map].
  rewrite E1, E2, E3, E4, E5, E6, E7, E8, E9.
  eexists. split; [reflexivity|]. split; [|split].
  - intros field action Hin. simpl in Hin.
    repeat (destruct Hin as [[= <- <-]|Hin];
            [ repeat (rewrite js_get_set_other by discriminate);
              rewrite js_get_set_same; assumption |]).
    contradiction.
  - apply js_get_set_same.
  - intros key Hk. simpl in Hk.
    repeat (rewrite js_get_set_other by (intros <-; apply Hk; tauto)). reflexivity.
Qed.

(** What a synchronisation leaves in the label table.  When
    [formatBindingForDisplay] returns a string for each of the nine
    synchronised slots, the synchronisation completes: each of the nine
    fields holds the lower-cased display label of its action's binding,
    TOGGLE_MUTE holds "n", every other field is as it was, and the storage
    and the events are untouched.  Without a table it does nothing. *)
Theorem sync_writes_labels (bindings : RuntimeKeybindings) (w : Window) :
  (forall a, In a syncedActions ->
             exists l, formatBindingForDisplay (js_get bindings a) = Normal (JString l)) ->
  match config_keybindings w with
  | None => syncSharedKeybindingDisplayConfig bindings w = (Normal tt, w)
  | Some table =>
      exists table',
        syncSharedKeybindingDisplayConfig bindings w
        = (Normal tt, mkWindow (localStorage w) (Some table') (dispatched w))
        /\ (forall field action l,
               In (field, action) labelFields ->
               formatBindingForDisplay (js_get bindings action) = Normal (JString l) ->
               js_get table' field = JString (Str.toLowerCase l))
        /\ js_get table' "TOGGLE_MUTE" = JString "n"
        /\ (forall key,
               ~ In key ("TOGGLE_MUTE" :: map fst labelFields) ->
               js_get table' key = js_get table key)
  end.
Proof.
  intros H.
  assert (L : labelled bindings = true).
  { unfold labelled. apply forallb_forall. intros a Ha.
    destruct (H a Ha) as (l & E). unfold toConfigLabel. now rewrite E. }
  pose proof (sync_table bindings w L) as T.
  destruct (config_keybindings w) as [table|]; [|exact T].
  destruct T as (table' & E & F & M & O).
  exists table'. split; [exact E|]. split; [|split; assumption].
  intros field action l Hin Hl. specialize (F field action Hin).
  unfold toConfigLabel in F. rewrite Hl in F. now injection F as <-.
Qed.

Lemma sync_writes_labels_witness :
  exists table',
    syncSharedKeybindingDisplayConfig DEFAULT_RUNTIME_KEYBINDINGS
      (mkWindow (mkStorage false false None)
                (Some [("INTERACT", JString "f"); ("MAP", JString "m")]) [])
    = (Normal tt, mkWindow (mkStorage false false None) (Some table') [])
    /\ (forall field action l,
           In (field, action) labelFields ->
           formatBindingForDisplay (js_get DEFAULT_RUNTIME_KEYBINDINGS action)
           = Normal (JString l) ->
           js_get table' field = JString (Str.toLowerCase l))
    /\ js_get table' "TOGGLE_MUTE" = JString "n"
    /\ (forall key,
           ~ In key ("TOGGLE_MUTE" :: map fst labelFields) ->
           js_get table' key
           = js_get [("INTERACT", JString "f"); ("MAP", JString "m")] key).
Proof.
  apply (sync_writes_labels DEFAULT_RUNTIME_KEYBINDINGS
           (mkWindow (mkStorage false false None)
                     (Some [("INTERACT", JString "f"); ("MAP", JString "m")]) [])).
  intros a Ha. simpl in Ha.
  repeat (destruct Ha as [<-|Ha]; [eexists; reflexivity|]). contradiction.
Defined.

(* ================================================================== *)
(** ** Effects of load, save and reset *)

Lemma sync_default (w : Window) :
  exists table',
    syncSharedKeybindingDisplayConfig DEFAULT_RUNTIME_KEYBINDINGS w
    = (Normal tt, mkWindow (localStorage w) table' (dispatched w))
    /\ (config_keybindings w = None -> table' = None).
Proof.
  destruct (sync_outcome DEFAULT_RUNTIME_KEYBINDINGS w default_within)
    as (c & table' & E & O & N).
  exists table'. split; [|exact N].
  destruct O as [[-> _]|(_ & _ & F)]; [exact E|].
  rewrite default_labelled in F. discriminate F.
Qed.

Lemma labelled_iff_tokens (value : JsValue) :
  labelled (sanitizeBindings value) = true <->
  forall a, In a syncedActions -> exists t, js_get (sanitizeBindings value) a = JString t.
Proof.
  assert (Hsub : forall a, In a syncedActions -> In a REBINDABLE_ACTION_IDS).
  { intros a. apply incl_Forall_in_iff.
    unfold syncedActions. repeat (apply Forall_cons; [simpl; tauto|]). apply Forall_nil. }
  unfold labelled. rewrite forallb_forall. split.
  - intros H a Ha. specialize (H a Ha).
    destruct (sanitize_settled value a (Hsub a Ha)) as (Sa & _).
    destruct (js_get (sanitizeBindings value) a); try contradiction.
    + eexists. reflexivity.
    + discriminate H.
  - intros H a Ha. destruct (H a Ha) as (t & E).
    destruct (sanitize_settled value a (Hsub a Ha)) as (_ & _ & Ca).
    rewrite E. apply canonical_label_completes, Ca, E.
Qed.

Lemma save_outcome_on_window (JSON_stringify : JsValue -> string) (value : JsValue)
    (w : Window) :
  exists table',
    saveRuntimeKeybindings JSON_stringify value (Some w)
    = (if match config_keybindings w with
          | None => true
          | Some _ => labelled (sanitizeBindings value)
          end
       then Normal (sanitizeBindings value) else Throw TypeError,
       Some (mkWindow
               (storageAfterWrite (localStorage w)
                  (JSON_stringify (JObject (sanitizeBindings value))))
               table'
               (if match config_keybindings w with
                   | None => true
                   | Some _ => labelled (sanitizeBindings value)
                   end
                then dispatched w ++ [RUNTIME_KEYBINDINGS_UPDATED_EVENT]
                else dispatched w)))
    /\ (config_keybindings w = None -> table' = None).
Proof.
  destruct w as [[b f e] cfg ev].
  unfold saveRuntimeKeybindings, tryCatch, bind, localStorage_setItem, storageAfterWrite.
  cbn [localStorage blocked full entry config_keybindings dispatched].
  set (s := sanitizeBindings value).
  assert (K : forall st,
             exists table',
               (let '(result, w') :=
                  (let (c, w') := syncSharedKeybindingDisplayConfig s (mkWindow st cfg ev) in
                   match c with
                   | Normal _ =>
                       match emitBindingsUpdated w' with
                       | (Normal _, w'') => ret s w''
                       | (Throw e0, w'') => (Throw e0, w'')
                       | (Beyond, w'') => (Beyond, w'')
                       end
                   | Throw e0 => (Throw e0, w')
                   | Beyond => (Beyond, w')
                   end)
                in (result, Some w'))
               = (if match cfg with None => true | Some _ => labelled s end
                  then Normal s else Throw TypeError,
                  Some (mkWindow st table'
                          (if match cfg with None => true | Some _ => labelled s end
                           then ev ++ [RUNTIME_KEYBINDINGS_UPDATED_EVENT] else ev)))
               /\ (cfg = None -> table' = None)).
  { intros st.
    destruct (sync_outcome s (mkWindow st cfg ev) (sanitized_within value))
      as (c & table' & E & O & N).
    exists table'. split; [|exact N]. rewrite E.
    cbn [config_keybindings localStorage dispatched] in *.
    destruct O as [[-> [Hc|Hl]]|(-> & Hc & Hl)].
    - rewrite Hc. reflexivity.
    - rewrite Hl. destruct cfg; reflexivity.
    - rewrite Hl. destruct cfg; [reflexivity | contradiction]. }
  destruct b; [|destruct f]; cbn [orb]; apply K.
Qed.

(** What [save] does on a window.  It attempts the write, and a refused
    write is swallowed and leaves the entry as it was.  It then returns the
    sanitised mapping and dispatches exactly one update event, unless the
    label table exists and a synchronised slot of the sanitised mapping does
    not hold a string: then it throws a TypeError, after the write and without
    dispatching.  Without a window it returns the sanitised mapping. *)
Theorem save_outcome (JSON_stringify : JsValue -> string) (value : JsValue) (w : Window) :
  let s := sanitizeBindings value in
  let completes_sync :=
    match config_keybindings w with None => true | Some _ => labelled s end in
  (exists table',
      saveRuntimeKeybindings JSON_stringify value (Some w)
      = (if completes_sync then Normal s else Throw TypeError,
         Some (mkWindow
                 (storageAfterWrite (localStorage w) (JSON_stringify (JObject s)))
                 table'
                 (if completes_sync
                  then dispatched w ++ [RUNTIME_KEYBINDINGS_UPDATED_EVENT]
                  else dispatched w)))
      /\ (config_keybindings w = None -> table' = None))
  /\ (labelled s = true <->
      forall a, In a syncedActions -> exists t, js_get s a = JString t)
  /\ saveRuntimeKeybindings JSON_stringify value None = (Normal s, None).
Proof.
  cbv zeta. split; [apply save_outcome_on_window|].
  split; [apply labelled_iff_tokens | reflexivity].
Qed.

Lemma load_reads_only_on_window (JSON_parse : string -> option JsValue) (w : Window) :
  exists bindings table',
    loadRuntimeKeybindings JSON_parse (Some w)
    = (Normal bindings, Some (mkWindow (localStorage w) table' (dispatched w)))
    /\ (config_keybindings w = None -> table' = None).
Proof.
  assert (D : forall w1 : Window,
             localStorage w1 = localStorage w -> dispatched w1 = dispatched w ->
             (config_keybindings w = None -> config_keybindings w1 = None) ->
             exists table',
               (let '(result, w') :=
                  (let (c, w') :=
                     syncSharedKeybindingDisplayConfig DEFAULT_RUNTIME_KEYBINDINGS w1 in
                   match c with
                   | Normal _ => ret DEFAULT_RUNTIME_KEYBINDINGS w'
                   | Throw e => (Throw e, w')
                   | Beyond => (Beyond, w')
                   end)
                in (result, Some w'))
               = (Normal DEFAULT_RUNTIME_KEYBINDINGS,
                  Some (mkWindow (localStorage w) table' (dispatched w)))
               /\ (config_keybindings w = None -> table' = None)).
  { intros w1 Hs He Hc. destruct (sync_default w1) as (table' & E & N).
    exists table'. rewrite E, Hs, He. split; [reflexivity|]. intros H. apply N, Hc, H. }
  unfold loadRuntimeKeybindings, tryCatch, bind, localStorage_getItem.
  destruct (blocked (localStorage w)).
  - destruct (D w eq_refl eq_refl (fun H => H)) as (table' & E & N).
    exists DEFAULT_RUNTIME_KEYBINDINGS, table'. split; [exact E | exact N].
  - destruct (truthy match entry (localStorage w) with
                     | Some text => JString text
                     | None => JNull
                     end); cbn [negb].
    + destruct (entry (localStorage w)) as [text|].
      * unfold parseJSON. destruct (JSON_parse text) as [parsed|].
        -- unfold ret at 1.
           destruct (sync_outcome (sanitizeBindings parsed) w (sanitized_within parsed))
             as (c & t1 & E & O & N).
           rewrite E. destruct O as [[-> _]|(-> & _ & _)].
           ++ exists (sanitizeBindings parsed), t1. split; [reflexivity | exact N].
           ++ destruct (D (mkWindow (localStorage w) t1 (dispatched w)) eq_refl eq_refl)
                as (table' & E' & N'); [exact N|].
              exists DEFAULT_RUNTIME_KEYBINDINGS, table'. split; [exact E' | exact N'].
        -- unfold throw.
           destruct (D w eq_refl eq_refl (fun H => H)) as (table' & E & N).
           exists DEFAULT_RUNTIME_KEYBINDINGS, table'. split; [exact E | exact N].
      * unfold parseJSON, throw.
        destruct (D w eq_refl eq_refl (fun H => H)) as (table' & E & N).
        exists DEFAULT_RUNTIME_KEYBINDINGS, table'. split; [exact E | exact N].
    + destruct (sync_default w) as (table' & E & N). rewrite E.
      exists DEFAULT_RUNTIME_KEYBINDINGS, table'. split; [reflexivity | exact N].
Qed.

(** [load] only reads: whatever the window, the storage and the parser, it
    returns a mapping and leaves the storage and the dispatched events as
    they were; without a label table it changes nothing at all. *)
Theorem load_reads_only (JSON_parse : string -> option JsValue) (w : Window) :
  exists bindings table',
    loadRuntimeKeybindings JSON_parse (Some w)
    = (Normal bindings, Some (mkWindow (localStorage w) table' (dispatched w)))
    /\ (config_keybindings w = None -> table' = None).
Proof. apply load_reads_only_on_window. Qed.

Lemma sanitize_default :
  sanitizeBindings (JObject DEFAULT_RUNTIME_KEYBINDINGS) = DEFAULT_RUNTIME_KEYBINDINGS.
Proof. reflexivity. Qed.

(** [reset] returns the default mapping in every world, and never throws;
    on a storage that accepts the write, with JSON.parse reading back what
    JSON.stringify wrote, [load] after [reset] returns the default mapping. *)
Theorem reset_restores_defaults (JSON_parse : string -> option JsValue)
    (JSON_stringify : JsValue -> string) :
  (forall world,
      fst (resetRuntimeKeybindings JSON_stringify world)
      = Normal DEFAULT_RUNTIME_KEYBINDINGS)
  /\ (forall w,
         blocked (localStorage w) = false ->
         full (localStorage w) = false ->
         JSON_stringify (JObject DEFAULT_RUNTIME_KEYBINDINGS) <> "" ->
         JSON_parse (JSON_stringify (JObject DEFAULT_RUNTIME_KEYBINDINGS))
         = Some (JObject DEFAULT_RUNTIME_KEYBINDINGS) ->
         exists w1 w2,
           resetRuntimeKeybindings JSON_stringify (Some w)
           = (Normal DEFAULT_RUNTIME_KEYBINDINGS, Some w1)
           /\ loadRuntimeKeybindings JSON_parse (Some w1)
              = (Normal DEFAULT_RUNTIME_KEYBINDINGS, Some w2)).
Proof.
  split.
  - intros [w|]; [|reflexivity]. unfold resetRuntimeKeybindings.
    destruct (save_outcome_on_window JSON_stringify (JObject DEFAULT_RUNTIME_KEYBINDINGS) w)
      as (table' & E & _).
    rewrite E, sanitize_default, default_labelled. destruct (config_keybindings w); reflexivity.
  - intros w Hb Hf Hne Hp. unfold resetRuntimeKeybindings.
    destruct (load_after_save_on_tokens JSON_parse JSON_stringify w
                (JObject DEFAULT_RUNTIME_KEYBINDINGS) Hb Hf) as (w1 & w2 & Es & El).
    + intros a Ha. rewrite sanitize_default. simpl in Ha.
      repeat (destruct Ha as [<-|Ha]; [eexists; reflexivity|]). contradiction.
    + rewrite sanitize_default. exact Hne.
    + rewrite sanitize_default. exact Hp.
    + rewrite sanitize_default in Es, El. now exists w1, w2.
Qed.

Lemma reset_restores_defaults_witness :
  exists w1 w2,
    resetRuntimeKeybindings FlatJSON.stringify
      (Some (mkWindow (mkStorage false false (Some "{not json")) (Some []) []))
    = (Normal DEFAULT_RUNTIME_KEYBINDINGS, Some w1)
    /\ loadRuntimeKeybindings FlatJSON.parse (Some w1)
       = (Normal DEFAULT_RUNTIME_KEYBINDINGS, Some w2).
Proof.
  apply (proj2 (reset_restores_defaults FlatJSON.parse FlatJSON.stringify)).
  - reflexivity.
  - reflexivity.
  - vm_compute. discriminate.
  - vm_compute. reflexivity.
Defined.

(* ================================================================== *)
(** ** Rebinding one action *)

Lemma split_by_keys (b : RuntimeKeybindings) (l1 l2 : list string) (a : string) :
  map fst b = l1 ++ a :: l2 ->
  exists bpre old bpost,
    b = bpre ++ (a, old) :: bpost /\ map fst bpre = l1 /\ map fst bpost = l2.
Proof.
  revert b. induction l1 as [|k l1 IH]; intros b H.
  - destruct b as [|[k v] b]; [discriminate H|]. simpl in H. injection H as -> H.
    now exists [], v, b.
  - destruct b as [|[k' v] b]; [discriminate H|]. simpl in H. injection H as -> H.
    destruct (IH b H) as (bpre & old & bpost & -> & K1 & K2).
    exists ((k, v) :: bpre), old, bpost. simpl. now rewrite K1.
Qed.

Lemma Repaired_replace (t1 : RuntimeKeybindings) :
  forall (r1 t2 r2 : RuntimeKeybindings) (a : string) (d old v : JsValue),
    map fst r1 = map fst t1 ->
    Repaired (t1 ++ (a, d) :: t2) (r1 ++ (a, old) :: r2) ->
    ~ In v (map snd t2) ->
    Repaired (t1 ++ (a, d) :: t2) (r1 ++ (a, v) :: r2).
Proof.
  induction t1 as [|[k x] t1 IH]; intros r1 t2 r2 a d old v Hk Hr Hv.
  - destruct r1; [|discriminate Hk]. simpl in *. inversion Hr; subst. now constructor.
  - destruct r1 as [|[k' y] r1]; [discriminate Hk|]. simpl in *.
    injection Hk as -> Hk. inversion Hr; subst. constructor; [assumption|].
    now apply (IH r1 t2 r2 a d old v).
Qed.

(** What becomes of a rebinding.  Let [b] be a sanitised mapping whose slots
    all hold strings, and let the token [t], canonical and not reserved, be
    requested for the action [a] without conflict.  If [t] is not the default
    of an action declared after [a], sanitising [b] with [a] set to [t]
    returns exactly that mapping.  If [t] is the default of an action
    declared after [a], the request is dropped, whatever [b] is: the slot of
    [a] falls back to the default of [a], which is not [t]. *)
Theorem rebind_outcome (value : JsValue) (pre post : RuntimeKeybindings) (a t : string)
    (d : JsValue) :
  DEFAULT_RUNTIME_KEYBINDINGS = pre ++ (a, d) :: post ->
  In t canonicalTokens ->
  isReservedBinding (JString t) = false ->
  (forall b,
      In (JString t) (map snd post) ->
      js_get (sanitizeBindings (JObject (js_set b a (JString t)))) a = d
      /\ d <> JString t)
  /\ ((forall x, In x REBINDABLE_ACTION_IDS ->
                 exists u, js_get (sanitizeBindings value) x = JString u) ->
      findBindingConflict (sanitizeBindings value) a (JString t) = None ->
      ~ In (JString t) (map snd post) ->
      sanitizeBindings (JObject (js_set (sanitizeBindings value) a (JString t)))
      = js_set (sanitizeBindings value) a (JString t)).
Proof.
  intros Hdef Hcan Hres. split.
  - intros b Hin. split.
    + apply (sanitize_slot_at (JObject (js_set b a (JString t))) pre post a d eq_refl Hdef).
      intros (_ & _ & _ & _ & H). apply H.
      cbn [record_get]. rewrite js_get_set_same, (canonical_fixed t Hcan). exact Hin.
    + intros ->. assert (Hnd := proj1 (proj2 default_consistent)).
      rewrite Hdef, map_app in Hnd. simpl in Hnd. apply NoDup_remove_2 in Hnd.
      apply Hnd, in_or_app. now right.
  - intros Htok Hfree Hlater.
    destruct (sanitize_repaired value) as (seen & (Hk & Hv & _ & Hs) & Hr).
    assert (Hkeys := sanitize_keys value).
    remember (sanitizeBindings value) as b eqn:Eb. clear Eb.
    assert (Hids : map fst b = map fst pre ++ a :: map fst post).
    { unfold Object_keys in Hkeys. rewrite Hkeys. unfold REBINDABLE_ACTION_IDS, Object_keys.
      rewrite Hdef, map_app. reflexivity. }
    destruct (split_by_keys b _ _ a Hids) as (bpre & old & bpost & -> & K1 & K2).
    assert (Ha : ~ In a (map fst bpre)).
    { rewrite map_app in Hk. simpl in Hk. apply NoDup_remove_2 in Hk.
      rewrite in_app_iff in Hk. tauto. }
    rewrite (js_set_focus bpre bpost a old (JString t) Ha).
    assert (Hunused : ~ In (JString t) (map snd bpre ++ map snd bpost)).
    { intros Hin.
      assert (X : exists k, k <> a /\ In (k, JString t) (bpre ++ (a, old) :: bpost)).
      { apply in_app_or in Hin as [Hin|Hin];
          apply in_map_iff in Hin as ([k x] & E & Hin); simpl in E; subst x;
          exists k; (split; [|apply in_or_app; simpl; tauto]); intros ->.
        - apply Ha. apply in_map_iff. now exists (a, JString t).
        - rewrite map_app in Hk. simpl in Hk. apply NoDup_remove_2 in Hk.
          apply Hk, in_or_app. right. apply in_map_iff. now exists (a, JString t). }
      destruct X as (k & Hne & Hin').
      apply (proj1 (conflict_from_None _ a (JString t) REBINDABLE_ACTION_IDS) Hfree k).
      - unfold Object_keys in Hkeys. rewrite <- Hkeys. apply in_map_iff.
        now exists (k, JString t).
      - split; [assumption|]. rewrite (In_js_get _ k (JString t) Hk Hin').
        simpl. apply String.eqb_refl. }
    assert (Hnd' : NoDup (map snd (bpre ++ (a, JString t) :: bpost))).
    { rewrite map_app in *. simpl in *. apply NoDup_remove_1 in Hv.
      apply (NoDup_Add (Add_app (JString t) _ _)). now split. }
    assert (Hall : Forall settledToken (map snd (bpre ++ (a, JString t) :: bpost))).
    { apply Forall_forall. intros v Hin. rewrite map_app, in_app_iff in Hin. simpl in Hin.
      assert (Hold : forall x, In x (map snd (bpre ++ (a, old) :: bpost)) -> settledToken x).
      { intros x Hx. split; [rewrite Forall_forall in Hs; now apply Hs|].
        apply in_map_iff in Hx as ([k y] & <- & Hy). simpl.
        destruct (Htok k) as (u & Eu).
        - unfold Object_keys in Hkeys. rewrite <- Hkeys. apply in_map_iff. now exists (k, y).
        - exists u. rewrite <- Eu. symmetry. now apply In_js_get. }
      destruct Hin as [Hin|[<-|Hin]].
      - apply Hold. rewrite map_app, in_app_iff. now left.
      - split; [|now exists t]. split; [exact I|]. split; [assumption|].
        intros u [= <-]. assumption.
      - apply Hold. rewrite map_app, in_app_iff. simpl. tauto. }
    assert (Hr' : Repaired DEFAULT_RUNTIME_KEYBINDINGS (bpre ++ (a, JString t) :: bpost)).
    { rewrite Hdef in *. now apply (Repaired_replace pre bpre post bpost a d old). }
    destruct (loop_replays _ DEFAULT_RUNTIME_KEYBINDINGS _ Hr' [] _ eq_refl Hnd' Hall
                default_consistent) as (seen' & E).
    rewrite sanitizeBindings_unfold. cbn [isRecord truthy typeof JsType_eqb andb].
    match goal with
    | |- fst ?x = ?y => change (fst x = fst (@nil (string * JsValue) ++ y, seen'))
    end.
    f_equal. exact E.
Qed.

Lemma rebind_outcome_witness :
  js_get (sanitizeBindings
            (JObject (js_set (sanitizeBindings (JObject [("moveLeft", JString "KeyZ")]))
                        "moveUp" (JString "KeyA")))) "moveUp"
  = JString "KeyW"
  /\ JString "KeyW" <> JString "KeyA".
Proof.
  apply (proj1 (rebind_outcome JNull [] (tl DEFAULT_RUNTIME_KEYBINDINGS) "moveUp" "KeyA"
                  (JString "KeyW") eq_refl
                  (proj1 (In_canonical_dec "KeyA") eq_refl) eq_refl)).
  simpl. tauto.
Defined.

(* ================================================================== *)
(** ** The controls panel *)

Section PanelFacts.

Import InstructionPanel.

Variable JSON_parse : string -> option JsValue.
Variable JSON_stringify : JsValue -> string.

Lemma onWindow_save (value : JsValue) (w : Window) :
  exists table',
    onWindow (saveRuntimeKeybindings JSON_stringify value) w
    = (if match config_keybindings w with
          | None => true
          | Some _ => labelled (sanitizeBindings value)
          end
       then Normal (sanitizeBindings value) else Throw TypeError,
       mkWindow
         (storageAfterWrite (localStorage w)
            (JSON_stringify (JObject (sanitizeBindings value))))
         table'
         (if match config_keybindings w with
             | None => true
             | Some _ => labelled (sanitizeBindings value)
             end
          then dispatched w ++ [RUNTIME_KEYBINDINGS_UPDATED_EVENT]
          else dispatched w)).
Proof.
  destruct (save_outcome_on_window JSON_stringify value w) as (table' & E & _).
  exists table'. unfold onWindow. now rewrite E.
Qed.

Lemma onWindow_load (w : Window) :
  exists loaded table',
    onWindow (loadRuntimeKeybindings JSON_parse) w
    = (Normal loaded, mkWindow (localStorage w) table' (dispatched w)).
Proof.
  destruct (load_reads_only_on_window JSON_parse w) as (loaded & table' & E & _).
  exists loaded, table'. unfold onWindow. now rewrite E.
Qed.

(** The accepting branch of [handleCaptureKey]. *)
Lemma capture_saves (actionId : string) (candidate : JsValue) (state : State)
    (w : Window) (result : Completion State) (w' : Window) :
  (next <- onWindow (saveRuntimeKeybindings JSON_stringify
                       (JObject (js_set (bindings state) actionId candidate))) ;;
   onWindow (loadRuntimeKeybindings JSON_parse) ;;;
   ret (mkState next None None)) w = (result, w') ->
  (result = Throw TypeError
   \/ result = Normal (mkState
                         (sanitizeBindings
                            (JObject (js_set (bindings state) actionId candidate)))
                         None None)
      /\ dispatched w' = dispatched w ++ [RUNTIME_KEYBINDINGS_UPDATED_EVENT])
  /\ localStorage w'
     = storageAfterWrite (localStorage w)
         (JSON_stringify
            (JObject (sanitizeBindings
                        (JObject (js_set (bindings state) actionId candidate))))).
Proof.
  unfold bind.
  destruct (onWindow_save (JObject (js_set (bindings state) actionId candidate)) w)
    as (t1 & ->).
  destruct (match config_keybindings w with
            | None => true
            | Some _ =>
                labelled (sanitizeBindings
                            (JObject (js_set (bindings state) actionId candidate)))
            end).
  - match goal with
    | |- context [onWindow (loadRuntimeKeybindings JSON_parse) ?w1] =>
        destruct (onWindow_load w1) as (loaded & t2 & ->)
    end.
    unfold ret. intros [= <- <-]. split; [right; split|]; reflexivity.
  - intros [= <- <-]. split; [now left | reflexivity].
Qed.

(** The panel's rebinding state machine.  While an action is being rebound,
    a key press that completes leaves the panel either idle or still
    listening for the same action.  Escape makes it idle and changes nothing
    else.  When it is still listening, the key was refused: an error message
    is set, and the bindings, the storage, the label table and the events are
    exactly as before. *)
Theorem keydown_unless_accepted (key code actionId : string) (state state' : State)
    (w w' : Window) :
  listeningActionId state = Some actionId ->
  keydown JSON_parse JSON_stringify true key code state w = (Normal state', w') ->
  (listeningActionId state' = None \/ listeningActionId state' = Some actionId)
  /\ (key = "Escape" -> state' = mkState (bindings state) None None /\ w' = w)
  /\ (listeningActionId state' = Some actionId ->
      bindings state' = bindings state /\ w' = w /\ errorMessage state' <> None
      /\ key <> "Escape").
Proof.
  intros Hl. unfold keydown. rewrite Hl. unfold handleCaptureKey.
  assert (Refused : forall msg,
            (Normal (mkState (bindings state) (listeningActionId state) (Some msg)), w)
            = (Normal state', w') ->
            key <> "Escape" ->
            (listeningActionId state' = None \/ listeningActionId state' = Some actionId)
            /\ (key = "Escape" -> state' = mkState (bindings state) None None /\ w' = w)
            /\ (listeningActionId state' = Some actionId ->
                bindings state' = bindings state /\ w' = w
                /\ errorMessage state' <> None /\ key <> "Escape")).
  { intros msg [= <- <-] Hk. cbn [listeningActionId bindings errorMessage].
    split; [now right|]. split; [intros E; contradiction|].
    intros _. split; [reflexivity|]. split; [reflexivity|]. split; [discriminate|assumption]. }
  destruct (String.eqb_spec key "Escape") as [->|Hk].
  { unfold ret. intros [= <- <-]. cbn [listeningActionId].
    split; [now left|]. split; [intros _; now split | discriminate]. }
  destruct (negb (truthy (normalizeCapturedKey code))).
  { unfold ret. intros H. now apply (Refused _ H). }
  destruct (isReservedBinding (normalizeCapturedKey code)).
  { unfold ret. intros H. now apply (Refused _ H). }
  destruct (findBindingConflict (bindings state) actionId (normalizeCapturedKey code)).
  { unfold bind, ret. destruct (formatBindingForDisplay (normalizeCapturedKey code));
      [|discriminate|discriminate].
    intros H. now apply (Refused _ H). }
  intros H. apply capture_saves in H as [[H|[H _]] _]; [discriminate H|].
  injection H as H. subst state'. cbn [listeningActionId].
  split; [now left|]. split; [intros E; contradiction | discriminate].
Qed.

(** An accepted key press.  When a key press other than Escape leaves the
    panel idle, the captured token passed the three checks, the bindings of
    the panel are the sanitised mapping of the old bindings with the action
    set to the token, no error is shown, the write was attempted with that
    mapping, and exactly one update event was dispatched. *)
Theorem accepted_key_is_saved (key code actionId : string) (state state' : State)
    (w w' : Window) :
  listeningActionId state = Some actionId ->
  key <> "Escape" ->
  keydown JSON_parse JSON_stringify true key code state w = (Normal state', w') ->
  listeningActionId state' = None ->
  truthy (normalizeCapturedKey code) = true
  /\ isReservedBinding (normalizeCapturedKey code) = false
  /\ findBindingConflict (bindings state) actionId (normalizeCapturedKey code) = None
  /\ bindings state'
     = sanitizeBindings
         (JObject (js_set (bindings state) actionId (normalizeCapturedKey code)))
  /\ errorMessage state' = None
  /\ localStorage w'
     = storageAfterWrite (localStorage w) (JSON_stringify (JObject (bindings state')))
  /\ dispatched w' = dispatched w ++ [RUNTIME_KEYBINDINGS_UPDATED_EVENT].
Proof.
  intros Hl Hk. unfold keydown. rewrite Hl. unfold handleCaptureKey.
  destruct (String.eqb_spec key "Escape") as [E|_]; [contradiction|].
  destruct (truthy (normalizeCapturedKey code)); cbn [negb].
  2: { unfold ret. intros [= <- <-]. cbn [listeningActionId]. rewrite Hl. discriminate. }
  destruct (isReservedBinding (normalizeCapturedKey code)).
  { unfold ret. intros [= <- <-]. cbn [listeningActionId]. rewrite Hl. discriminate. }
  destruct (findBindingConflict (bindings state) actionId (normalizeCapturedKey code)).
  { unfold bind, ret. destruct (formatBindingForDisplay (normalizeCapturedKey code));
      [|discriminate|discriminate].
    intros [= <- <-]. cbn [listeningActionId]. rewrite Hl. discriminate. }
  intros H _. apply capture_saves in H as [[H|[H Hd]] Hs]; [discriminate H|].
  injection H as H. subst state'. cbn [bindings errorMessage].
  repeat split; assumption.
Qed.

End PanelFacts.

Lemma keydown_unless_accepted_witness :
  let state := InstructionPanel.mkState DEFAULT_RUNTIME_KEYBINDINGS (Some "interact") None in
  let state' :=
    InstructionPanel.mkState DEFAULT_RUNTIME_KEYBINDINGS (Some "interact")
      (Some (InstructionPanel.AlreadyUses (JString "Chat") (JString "Y"))) in
  let w := mkWindow (mkStorage false false None) (Some []) [] in
  (InstructionPanel.listeningActionId state' = None
   \/ InstructionPanel.listeningActionId state' = Some "interact")
  /\ ("y" = "Escape" ->
      state' = InstructionPanel.mkState (InstructionPanel.bindings state) None None
      /\ w = w)
  /\ (InstructionPanel.listeningActionId state' = Some "interact" ->
      InstructionPanel.bindings state' = InstructionPanel.bindings state
      /\ w = w /\ InstructionPanel.errorMessage state' <> None /\ "y" <> "Escape").
Proof.
  cbv zeta.
  apply (keydown_unless_accepted FlatJSON.parse FlatJSON.stringify "y" "KeyY" "interact").
  - reflexivity.
  - vm_compute. reflexivity.
Defined.

Lemma accepted_key_is_saved_witness :
  let state := InstructionPanel.mkState DEFAULT_RUNTIME_KEYBINDINGS (Some "interact") None in
  let next := js_set DEFAULT_RUNTIME_KEYBINDINGS "interact" (JString "KeyZ") in
  let state' := InstructionPanel.mkState next None None in
  let w := mkWindow (mkStorage false false None) (Some []) [] in
  truthy (normalizeCapturedKey "KeyZ") = true
  /\ isReservedBinding (normalizeCapturedKey "KeyZ") = false
  /\ findBindingConflict (InstructionPanel.bindings state) "interact"
       (normalizeCapturedKey "KeyZ") = None
  /\ InstructionPanel.bindings state'
     = sanitizeBindings
         (JObject (js_set (InstructionPanel.bindings state) "interact"
                     (normalizeCapturedKey "KeyZ")))
  /\ InstructionPanel.errorMessage state' = None
  /\ localStorage
       (snd (InstructionPanel.keydown FlatJSON.parse FlatJSON.stringify true "z" "KeyZ"
               state w))
     = storageAfterWrite (localStorage w)
         (FlatJSON.stringify (JObject (InstructionPanel.bindings state')))
  /\ dispatched
       (snd (InstructionPanel.keydown FlatJSON.parse FlatJSON.stringify true "z" "KeyZ"
               state w))
     = dispatched w ++ [RUNTIME_KEYBINDINGS_UPDATED_EVENT].
Proof.
  cbv zeta.
  apply (accepted_key_is_saved FlatJSON.parse FlatJSON.stringify "z" "KeyZ" "interact").
  - reflexivity.
  - discriminate.
  - vm_compute. reflexivity.
  - reflexivity.
Defined.

(** The click on "Reset to Defaults" never throws: it leaves the panel idle,
    without error and showing the default mapping, attempts the write of the
    default mapping and dispatches one update event. *)
Theorem reset_click (JSON_parse : string -> option JsValue)
    (JSON_stringify : JsValue -> string) (state : InstructionPanel.State) (w : Window) :
  exists w',
    InstructionPanel.resetClicked JSON_parse JSON_stringify state w
    = (Normal (InstructionPanel.mkState DEFAULT_RUNTIME_KEYBINDINGS None None), w')
    /\ localStorage w'
       = storageAfterWrite (localStorage w)
           (JSON_stringify (JObject DEFAULT_RUNTIME_KEYBINDINGS))
    /\ dispatched w' = dispatched w ++ [RUNTIME_KEYBINDINGS_UPDATED_EVENT].
Proof.
  unfold InstructionPanel.resetClicked, bind.
  change (InstructionPanel.onWindow (resetRuntimeKeybindings JSON_stringify) w)
    with (InstructionPanel.onWindow
            (saveRuntimeKeybindings JSON_stringify (JObject DEFAULT_RUNTIME_KEYBINDINGS)) w).
  destruct (onWindow_save JSON_stringify (JObject DEFAULT_RUNTIME_KEYBINDINGS) w)
    as (t1 & E).
  rewrite E, sanitize_default, default_labelled.
  replace (match config_keybindings w with None => true | Some _ => true end)
    with true by (destruct (config_keybindings w); reflexivity).
  match goal with
  | |- context [InstructionPanel.onWindow (loadRuntimeKeybindings JSON_parse) ?w1] =>
      destruct (onWindow_load JSON_parse w1) as (loaded & t2 & ->)
  end.
  eexists. split; [reflexivity|]. split; reflexivity.
Qed.

(* ================================================================== *)
(** ** The alias table *)

Lemma trim_not_blank (s : string) : Str.toLowerCase (Str.trim s) <> " ".
Proof.
  unfold Str.trim. destruct (trimStart_result s) as [E|(c & rest & E & W)]; rewrite E.
  - discriminate.
  - destruct (trimEnd_keeps_head c rest W) as (kept & ->). simpl.
    intros [= H _]. rewrite <- lowerChar_whitespace, H in W. discriminate W.
Qed.

(** The alias look-up is insensitive to case and to surrounding white
    space: an input whose trimmed, lower-cased form is a key of the alias
    table normalises to the value of that entry.  No input reaches the entry
    whose key is a single space. *)
Theorem alias_lookup_insensitive (s : string) :
  (forall v, own CANONICAL_ALIASES (Str.toLowerCase (Str.trim s)) = Some v ->
             normalizeBindingToken (JString s) = v)
  /\ Str.toLowerCase (Str.trim s) <> " ".
Proof.
  split; [|apply trim_not_blank].
  intros v H. apply (normalize_alias s _ v eq_refl H).
  - apply own_In in H. simpl in H.
    repeat (destruct H as [[= _ <-]|H]; [reflexivity|]). contradiction.
  - intros E. rewrite E in H. discriminate H.
Qed.

Lemma alias_lookup_insensitive_witness :
  normalizeBindingToken (JString "  Command ") = JString "Meta".
Proof.
  apply (proj1 (alias_lookup_insensitive "  Command ")). reflexivity.
Defined.
